(** * Solar energy estimation: a shallow embedding of [app.py]

    The development follows the Python module function by function:
    the astronomical helpers ([declination_angle], [daylight_hours]), the
    energy model ([solar_intensity], [calculate_energy]), the two HTTP
    gateways ([get_weather_data_cached], [get_region_name_from_coords_cached]),
    the catalog loader ([read_regions]) and the ranking pass
    ([process_and_save_top_regions]).

    Python's numbers are duck-typed, so the functions are written once over a
    number system [F] given by three interfaces ([Arith], [Libm], [Round]) and
    then read in two instances:
    - [Binary64]: IEEE-754 double precision, every finite value an integer
      multiple of [2^-1074], operations rounded to nearest-even;
    - [Ideal]: the real numbers with the real [sin], [tan], [acos] and [PI].

    Exceptions are explicit: a computation that may raise has type
    [except A], and [try_except] is the [try: ... except Cls: ...] statement. *)

From Stdlib Require Import ZArith QArith Lia List Bool String Ascii.
From Stdlib Require Import Permutation Sorted.
From Stdlib Require Import Reals Lra Qreals.
From Stdlib Require Floats.
Import ListNotations.

Set Implicit Arguments.
Set Warnings "-register-all,-inexact-float".

(* ================================================================= *)
(** ** Exceptions *)

(** The exception classes that the calls of the module can raise. *)
Inductive exn : Set :=
  | ValueError | TypeError | KeyError | AttributeError
  | ZeroDivisionError | OverflowError
  | ConnectionError | Timeout | HTTPError | JSONDecodeError.

(** The two classes named in [except] clauses of the source. *)
Inductive exn_class : Set := ExceptionCls | ValueErrorCls.

(** [isinstance(e, cls)]: every class above derives from [Exception];
    [JSONDecodeError] derives from [ValueError]. *)
Definition caught_by (cls : exn_class) (e : exn) : bool :=
  match cls with
  | ExceptionCls => true
  | ValueErrorCls =>
      match e with
      | ValueError | JSONDecodeError => true
      | _ => false
      end
  end.

Inductive except (A : Type) : Type :=
  | Ok (a : A)
  | Raise (e : exn).
Arguments Ok {A} a.
Arguments Raise {A} e.

Definition bind {A B : Type} (c : except A) (k : A -> except B) : except B :=
  match c with
  | Ok a => k a
  | Raise e => Raise e
  end.

Declare Scope except_scope.
Delimit Scope except_scope with except.
Notation "x <- c ;; k" := (bind c (fun x => k))
  (at level 61, c at next level, right associativity) : except_scope.
Notation "c ;;; k" := (bind c (fun _ => k))
  (at level 61, right associativity) : except_scope.

(** [try: body  except cls: handler] *)
Definition try_except {A : Type} (body : except A) (cls : exn_class)
    (handler : except A) : except A :=
  match body with
  | Ok a => Ok a
  | Raise e => if caught_by cls e then handler else Raise e
  end.

(* ================================================================= *)
(** ** Number systems *)

(** Arithmetic of Python floats.  [of_Q] is the value of a numeric literal or
    of an [int / int] quotient.  [div x y] is [x / y] for a non-zero [y]; the
    divisors of the source are the literals [100], [15], [1_000_000], [365],
    [math.pi] and the length of a non-empty list, so [ZeroDivisionError] is
    never raised. *)
Class Arith (F : Type) : Type := {
  of_Q : Q -> F;
  add : F -> F -> F;
  sub : F -> F -> F;
  mul : F -> F -> F;
  div : F -> F -> F;
  neg : F -> F;
  leb : F -> F -> bool;
  is_nan : F -> bool;
  is_zero : F -> bool
}.

(** The [math] module.  [math.tan] and [math.acos] return [None] where Python
    raises [ValueError] ("math domain error"); [math.sin] is only applied to a
    finite quotient of integers. *)
Class Libm (F : Type) : Type := {
  m_pi : F;
  m_radians : F -> F;
  m_sin : F -> F;
  m_tan : F -> option F;
  m_acos : F -> option F
}.

(** The builtin [round(x, ndigits)]. *)
Class Round (F : Type) : Type := {
  py_round : F -> Z -> F
}.

Definition of_Z {F : Type} {FA : Arith F} (z : Z) : F := of_Q (inject_Z z).

(* ================================================================= *)
(** ** Helper functions of the source *)

Definition SOLAR_CONSTANT : Z := 1367.

Section Helpers.
Context {F : Type} {FA : Arith F} {FL : Libm F} {FR : Round F}.

(** [23.45 * math.sin(math.radians(360 * (284 + n) / 365))] *)
Definition declination_angle (n : Z) : F :=
  mul (of_Q (2345 # 100))
      (m_sin (m_radians (of_Q (Qmake (360 * (284 + n)) 365)))).

(** The body of the [try] block of [daylight_hours]. *)
Definition hour_angle_hours (lat_rad decl_rad : F) : option F :=
  match m_tan lat_rad with
  | None => None
  | Some t1 =>
      match m_tan decl_rad with
      | None => None
      | Some t2 =>
          match m_acos (mul (neg t1) t2) with
          | None => None
          | Some ha =>
              Some (div (div (mul (mul (of_Z 2) ha) (of_Z 180)) m_pi)
                        (of_Z 15))
          end
      end
  end.

Definition daylight_hours (latitude decl : F) : F :=
  let lat_rad := m_radians latitude in
  let decl_rad := m_radians decl in
  match hour_angle_hours lat_rad decl_rad with
  | Some h => h
  | None => of_Z 0          (* except ValueError: return 0 *)
  end.

(** [round(SOLAR_CONSTANT * (1 - cloud_cover / 100), 2)] *)
Definition solar_intensity (cloud_cover : F) : F :=
  py_round (mul (of_Z SOLAR_CONSTANT)
                (sub (of_Z 1) (div cloud_cover (of_Z 100)))) 2.

(** [round((intensity * daylight * 3600) / 1_000_000, 2)] *)
Definition calculate_energy (intensity daylight : F) : F :=
  py_round (div (mul (mul intensity daylight) (of_Z 3600))
                (of_Z 1000000)) 2.

End Helpers.

(* ================================================================= *)
(** ** Python values decoded from JSON *)

(** A [dict] is its sequence of insertions: a later binding of a key
    replaces an earlier one. *)
Fixpoint dict_get {V : Type} (key : string) (d : list (string * V)) : option V :=
  match d with
  | [] => None
  | (k, v) :: rest =>
      match dict_get key rest with
      | Some w => Some w
      | None => if String.eqb key k then Some v else None
      end
  end.

Section Values.
Context {F : Type} {FA : Arith F}.

Inductive json : Type :=
  | JNull
  | JBool (b : bool)
  | JNum (x : F)
  | JStr (s : string)
  | JArr (items : list json)
  | JObj (fields : list (string * json)).

(** [bool(v)] *)
Definition truthy (v : json) : bool :=
  match v with
  | JNull => false
  | JBool b => b
  | JNum x => negb (is_zero x)
  | JStr s => negb (String.eqb s EmptyString)
  | JArr items => match items with [] => false | _ :: _ => true end
  | JObj fields => match fields with [] => false | _ :: _ => true end
  end.

(** [obj.get(key, default)]; only a [dict] has the method. *)
Definition py_get (obj : json) (key : string) (default : json) : except json :=
  match obj with
  | JObj fields =>
      Ok (match dict_get key fields with Some v => v | None => default end)
  | _ => Raise AttributeError
  end.

(** [acc + v] inside [sum]: numbers and booleans add, anything else is a
    [TypeError].  The additions are made from the left, starting from 0. *)
Definition py_add (acc : F) (v : json) : except F :=
  match v with
  | JNum x => Ok (add acc x)
  | JBool b => Ok (add acc (of_Z (if b then 1 else 0)))
  | _ => Raise TypeError
  end.

Fixpoint sum_from (acc : F) (items : list json) : except F :=
  match items with
  | [] => Ok acc
  | v :: rest =>
      match py_add acc v with
      | Ok acc' => sum_from acc' rest
      | Raise e => Raise e
      end
  end.

Fixpoint chars (s : string) : list json :=
  match s with
  | EmptyString => []
  | String c rest => JStr (String c EmptyString) :: chars rest
  end.

(** [sum(v)]: a list yields its items, a dict its keys, a string its
    characters; the other values are not iterable. *)
Definition py_sum (v : json) : except F :=
  match v with
  | JArr items => sum_from (of_Z 0) items
  | JObj fields => sum_from (of_Z 0) (map (fun kv => JStr (fst kv)) fields)
  | JStr s => sum_from (of_Z 0) (chars s)
  | _ => Raise TypeError
  end.

(** [len(v)] *)
Definition py_len (v : json) : except Z :=
  match v with
  | JArr items => Ok (Z.of_nat (List.length items))
  | JObj fields => Ok (Z.of_nat (List.length fields))
  | JStr s => Ok (Z.of_nat (String.length s))
  | _ => Raise TypeError
  end.

(** [a or b]: [b] is evaluated only when [a] is falsy. *)
Definition py_or (a : json) (b : except json) : except json :=
  if truthy a then Ok a else b.

(* --------------------------------------------------------------- *)
(** *** HTTP *)

(** A received response: its status line and its body, [None] when the
    body is not a JSON document. *)
Record response : Type := {
  status_code : Z;
  body : option json
}.

(** [res.raise_for_status()] *)
Definition raise_for_status (res : response) : except unit :=
  if ((400 <=? status_code res) && (status_code res <? 600))%Z
  then Raise HTTPError
  else Ok tt.

(** [res.json()] *)
Definition res_json (res : response) : except json :=
  match body res with
  | Some data => Ok data
  | None => Raise JSONDecodeError
  end.

End Values.

Arguments json F : clear implicits.
Arguments response F : clear implicits.

(* ================================================================= *)
(** ** Gateways *)

Section Gateways.
Context {F : Type} {FA : Arith F} {FR : Round F}.

(** [session.get(url, timeout=8)] for the forecast and the reverse-geocoding
    URL built from [lat] and [lon]: a response, or the exception raised by
    the transport ([ConnectionError], [Timeout], ...).  Within one run the
    answer for a URL is fixed, which is also what [lru_cache] gives the
    callers. *)
Variable open_meteo : F -> F -> except (response F).
Variable nominatim : F -> F -> except (response F).

Local Open Scope except_scope.

(** Line 60: [sum(clouds_list)/len(clouds_list) if clouds_list else 0] *)
Definition average_clouds (clouds_list : json F) : except F :=
  if truthy clouds_list
  then total <- py_sum clouds_list ;;
       n <- py_len clouds_list ;;
       Ok (div total (of_Z n))
  else Ok (of_Z 0).

(** Lines 57-61: the sample read from the decoded payload [data]. *)
Definition weather_sample (data : json F) : except (json F * F) :=
  current <- py_get data "current_weather" (JObj []) ;;
  temp <- py_get current "temperature" (JNum (of_Z 25)) ;;
  hourly <- py_get data "hourly" (JObj []) ;;
  clouds_list <- py_get hourly "cloudcover" (JArr [JNum (of_Z 0)]) ;;
  clouds <- average_clouds clouds_list ;;
  Ok (temp, clouds).

(** The [try] block of [get_weather_data_cached]. *)
Definition weather_body (lat lon : F) : except (json F * F) :=
  res <- open_meteo lat lon ;;
  raise_for_status res ;;;
  data <- res_json res ;;
  weather_sample data.

Definition get_weather_data_cached (lat_rounded lon_rounded : F)
    : except (json F * F) :=
  try_except (weather_body lat_rounded lon_rounded)
             ExceptionCls
             (Ok (JNum (of_Z 25), of_Z 0)).

Definition get_weather_data (lat lon : F) : except (json F * F) :=
  get_weather_data_cached (py_round lat 4) (py_round lon 4).

(** Line 78: the name chosen from the address object [addr]. *)
Definition address_name (addr : json F) : except (json F) :=
  city <- py_get addr "city" JNull ;;
  py_or city (
    town <- py_get addr "town" JNull ;;
    py_or town (
      village <- py_get addr "village" JNull ;;
      py_or village (
        state <- py_get addr "state" JNull ;;
        py_or state (Ok (JStr "Unknown"))))).

(** The [try] block of [get_region_name_from_coords_cached]. *)
Definition region_name_body (lat lon : F) : except (json F) :=
  res <- nominatim lat lon ;;
  raise_for_status res ;;;
  data <- res_json res ;;
  addr <- py_get data "address" (JObj []) ;;
  address_name addr.

Definition get_region_name_from_coords_cached (lat_rounded lon_rounded : F)
    : except (json F) :=
  try_except (region_name_body lat_rounded lon_rounded)
             ExceptionCls
             (Ok (JStr "Unknown")).

Definition get_region_name_from_coords (lat lon : F) : except (json F) :=
  get_region_name_from_coords_cached (py_round lat 4) (py_round lon 4).

End Gateways.

(* ================================================================= *)
(** ** The region catalog *)

(** A CSV file as [csv.reader] yields it: one list of fields per record, a
    blank line being the empty record. *)
Definition csv_table : Type := list (list string).

(** A row of [csv.DictReader]: field name to value, [None] being the
    [restval] given to the fields that a short record does not reach. *)
Definition csv_row : Type := list (string * option string).

(** [dict(zip(fieldnames, record))] followed by the [restval] filling.  The
    surplus values of a long record are stored under the key [None], which no
    string key reads. *)
Fixpoint zip_restval (fieldnames : list string) (record : list string) : csv_row :=
  match fieldnames, record with
  | [], _ => []
  | k :: ks, [] => (k, None) :: zip_restval ks []
  | k :: ks, v :: vs => (k, Some v) :: zip_restval ks vs
  end.

Definition is_blank (record : list string) : bool :=
  match record with [] => true | _ :: _ => false end.

(** The first record is the header; blank records are skipped. *)
Definition DictReader (f : csv_table) : list csv_row :=
  match f with
  | [] => []
  | fieldnames :: records =>
      map (zip_restval fieldnames) (filter (fun r => negb (is_blank r)) records)
  end.

(** [row[key]] *)
Definition row_item (row : csv_row) (key : string) : except (option string) :=
  match dict_get key row with
  | Some v => Ok v
  | None => Raise KeyError
  end.

Section Catalog.
Context {F : Type}.

(** The parser behind [float(s)]: [None] where Python raises [ValueError]. *)
Variable float_of_str : string -> option F.

(** [float(v)] for a cell of a row. *)
Definition py_float (v : option string) : except F :=
  match v with
  | None => Raise TypeError
  | Some s =>
      match float_of_str s with
      | Some x => Ok x
      | None => Raise ValueError
      end
  end.

Record region_entry : Type := {
  region : option string;
  latitude : F;
  longitude : F
}.

Local Open Scope except_scope.

(** The dictionary display inside the [try] of the loop body. *)
Definition region_of_row (row : csv_row) : except region_entry :=
  name <- row_item row "region" ;;
  lat_cell <- row_item row "latitude" ;;
  lat <- py_float lat_cell ;;
  lon_cell <- row_item row "longitude" ;;
  lon <- py_float lon_cell ;;
  Ok {| region := name; latitude := lat; longitude := lon |}.

(** The [for row in reader] loop: [append] on success, [continue] on any
    exception. *)
Fixpoint read_rows (rows : list csv_row) : list region_entry :=
  match rows with
  | [] => []
  | row :: rest =>
      match region_of_row row with
      | Ok r => r :: read_rows rest
      | Raise _ => read_rows rest
      end
  end.

(** [file] is the content found at [file_path], [None] when
    [os.path.exists] is false. *)
Definition read_regions (file : option csv_table) : list region_entry :=
  match file with
  | None => []
  | Some f => read_rows (DictReader f)
  end.

End Catalog.

Arguments region_entry F : clear implicits.

(* ================================================================= *)
(** ** The ranking pass *)

Section Pipeline.
Context {F : Type} {FA : Arith F} {FL : Libm F} {FR : Round F}.

Variable open_meteo : F -> F -> except (response F).
Variable float_of_str : string -> option F.

(** The clock: [str(today)], [today.timetuple().tm_yday] and
    [now.strftime("%H:%M:%S")]. *)
Variable today : string.
Variable day_number : Z.
Variable now : string.

(** One entry of [results]. *)
Record result : Type := {
  res_region : option string;
  res_date : string;
  res_time : string;
  temp : json F;
  cloud : F;
  intensity : F;
  daylight : F;
  energy : F
}.

(** [df.sort_values(by='energy', ascending=False)] of pandas. *)
Variable sort_values : list result -> list result.

(** The two files of the pass: the catalog that is read and the snapshot
    that is written; [None] is a file that does not exist. *)
Record files : Type := {
  REGION_FILE : option csv_table;
  TOP_REGIONS_FILE : option (list result)
}.

Local Open Scope except_scope.

(** The body of [for r in regions]. *)
Definition region_result (decl : F) (r : region_entry F) : except result :=
  let lat := latitude r in
  let lon := longitude r in
  w <- get_weather_data open_meteo lat lon ;;
  let daylight := daylight_hours lat decl in
  let intensity := solar_intensity (snd w) in
  let energy := calculate_energy intensity daylight in
  Ok {| res_region := region r;
        res_date := today;
        res_time := now;
        temp := fst w;
        cloud := py_round (snd w) 2;
        intensity := intensity;
        daylight := py_round daylight 2;
        energy := energy |}.

Fixpoint for_each (decl : F) (regions : list (region_entry F))
    : except (list result) :=
  match regions with
  | [] => Ok []
  | r :: rest =>
      row <- region_result decl r ;;
      rows <- for_each decl rest ;;
      Ok (row :: rows)
  end.

(** [df.to_csv(TOP_REGIONS_FILE, ...)]: the file is opened for writing and
    holds the rows of [df] afterwards. *)
Definition to_csv (df : list result) (fs : files) : files :=
  {| REGION_FILE := REGION_FILE fs; TOP_REGIONS_FILE := Some df |}.

Definition process_and_save_top_regions (fs : files)
    : except (list result * files) :=
  let decl := declination_angle day_number in
  let regions := read_regions float_of_str (REGION_FILE fs) in
  results <- for_each decl regions ;;
  match results with
  | [] => Ok ([], fs)                               (* df.empty *)
  | _ :: _ =>
      let df := firstn 10 (sort_values results) in
      Ok (df, to_csv df fs)
  end.

End Pipeline.

Arguments result F : clear implicits.
Arguments files F : clear implicits.

(* ================================================================= *)
(** ** IEEE-754 double precision *)

Module Binary64.

(** [Fin k] is the finite double of value [k * 2^-1074]: every finite
    double, subnormal or normal, is such a multiple.  The two zeros are
    identified, as no operation of the source tells them apart. *)
Inductive float : Set :=
  | Fin (k : Z)
  | PInf
  | NInf
  | NaN.

Definition unit_scale : Z := 2 ^ 1074.

(** The first magnitude beyond the largest finite double,
    [2^1024 = 2^2098 * 2^-1074]. *)
Definition overflow_threshold : Z := 2 ^ 2098.

(** The integer nearest to [n / d] for [0 < d], ties to the even one. *)
Definition round_half_even (n d : Z) : Z :=
  let q := (n / d)%Z in
  let r := (n mod d)%Z in
  match (2 * r ?= d)%Z with
  | Lt => q
  | Gt => (q + 1)%Z
  | Eq => if Z.even q then q else (q + 1)%Z
  end.

(** The binary logarithm of the spacing of the doubles around [n / d] units,
    for [0 < d]: below [2^53] units the spacing is one unit, and it doubles
    with each further binade. *)
Definition shift (n d : Z) : Z :=
  Z.max 0 (Z.log2 (Z.abs n / d) - 52).

(** The multiple of [2^-1074] with a 53-bit significand nearest to
    [n / d] units, for [0 < d], ties to the even significand. *)
Definition round_units (n d : Z) : Z :=
  let s := shift n d in
  (2 ^ s * round_half_even n (d * 2 ^ s))%Z.

Definition round_rat (n d : Z) : Z :=
  if (d <? 0)%Z then round_units (- n) (- d) else round_units n d.

(** Overflow to an infinity. *)
Definition finish (k : Z) : float :=
  if (overflow_threshold <=? k)%Z then PInf
  else if (k <=? - overflow_threshold)%Z then NInf
  else Fin k.

Definition sign_inf (negative : bool) : float :=
  if negative then NInf else PInf.

Definition fneg (x : float) : float :=
  match x with
  | Fin k => Fin (- k)
  | PInf => NInf
  | NInf => PInf
  | NaN => NaN
  end.

Definition fadd (x y : float) : float :=
  match x, y with
  | NaN, _ | _, NaN => NaN
  | PInf, NInf | NInf, PInf => NaN
  | PInf, _ | _, PInf => PInf
  | NInf, _ | _, NInf => NInf
  | Fin a, Fin b => finish (round_units (a + b) 1)
  end.

Definition fsub (x y : float) : float := fadd x (fneg y).

Definition fmul (x y : float) : float :=
  match x, y with
  | NaN, _ | _, NaN => NaN
  | Fin a, Fin b => finish (round_units (a * b) unit_scale)
  | Fin a, PInf | PInf, Fin a =>
      if (a =? 0)%Z then NaN else sign_inf (a <? 0)%Z
  | Fin a, NInf | NInf, Fin a =>
      if (a =? 0)%Z then NaN else sign_inf (0 <? a)%Z
  | PInf, PInf | NInf, NInf => PInf
  | PInf, NInf | NInf, PInf => NInf
  end.

(** [x / y]; a zero divisor, where Python raises, is given [NaN]. *)
Definition fdiv (x y : float) : float :=
  match x, y with
  | NaN, _ | _, NaN => NaN
  | Fin a, Fin b =>
      if (b =? 0)%Z then NaN else finish (round_rat (a * unit_scale) b)
  | Fin _, PInf | Fin _, NInf => Fin 0
  | PInf, Fin b => if (b =? 0)%Z then NaN else sign_inf (b <? 0)%Z
  | NInf, Fin b => if (b =? 0)%Z then NaN else sign_inf (0 <? b)%Z
  | _, _ => NaN
  end.

(** [x <= y] *)
Definition fleb (x y : float) : bool :=
  match x, y with
  | NaN, _ | _, NaN => false
  | NInf, _ | _, PInf => true
  | Fin a, Fin b => (a <=? b)%Z
  | _, _ => false
  end.

(** [x < y] *)
Definition fltb (x y : float) : bool :=
  match x, y with
  | NaN, _ | _, NaN => false
  | Fin a, Fin b => (a <? b)%Z
  | PInf, _ | _, NInf => false
  | _, _ => true
  end.

Definition fis_nan (x : float) : bool :=
  match x with NaN => true | _ => false end.

Definition fis_zero (x : float) : bool :=
  match x with Fin 0 => true | _ => false end.

(** The double nearest to a rational: a literal, or [int / int]. *)
Definition fof_Q (q : Q) : float :=
  finish (round_units (Qnum q * unit_scale) (Zpos (Qden q))).

(** [round(x, ndigits)]: the decimal with [ndigits] places nearest to the
    exact value of [x], ties to even, converted back to the nearest double.
    Infinities and NaN round to themselves; beyond 323 places [x] is
    returned and below -308 places the result is zero. *)
Definition fround (x : float) (ndigits : Z) : float :=
  match x with
  | Fin k =>
      if (323 <? ndigits)%Z then x
      else if (ndigits <? -308)%Z then Fin 0
      else if (0 <=? ndigits)%Z then
        let m := round_half_even (k * 10 ^ ndigits) unit_scale in
        finish (round_units (m * unit_scale) (10 ^ ndigits))
      else
        let p := (10 ^ (- ndigits))%Z in
        let m := round_half_even k (unit_scale * p) in
        finish (round_units (m * p * unit_scale) 1)
  | _ => x
  end.

(** The exact value of a finite double. *)
Definition to_Q (x : float) : option Q :=
  match x with
  | Fin k => Some (Qred (Qmake k (Z.to_pos unit_scale)))
  | _ => None
  end.

#[global] Instance float_Arith : Arith float := {|
  of_Q := fof_Q;
  add := fadd;
  sub := fsub;
  mul := fmul;
  div := fdiv;
  neg := fneg;
  leb := fleb;
  is_nan := fis_nan;
  is_zero := fis_zero
|}.

#[global] Instance float_Round : Round float := {|
  py_round := fround
|}.

(** [x <= y] and [x < y] as propositions. *)
Definition fle (x y : float) : Prop := fleb x y = true.
Definition flt (x y : float) : Prop := fltb x y = true.

End Binary64.

(* ================================================================= *)
(** ** Real arithmetic *)

Module Ideal.

Local Open Scope R_scope.

Definition Rleb (x y : R) : bool := if Rle_dec x y then true else false.

Definition Ris_zero (x : R) : bool := if Req_dec_T x 0 then true else false.

(** The integer nearest to [x], ties to the even one. *)
Definition Rround_half_even (x : R) : Z :=
  let f := Int_part x in
  let r := frac_part x in
  if Rlt_dec r (1 / 2) then f
  else if Rlt_dec (1 / 2) r then (f + 1)%Z
  else if Z.even f then f else (f + 1)%Z.

Definition Rround (x : R) (ndigits : Z) : R :=
  IZR (Rround_half_even (x * powerRZ 10 ndigits)) / powerRZ 10 ndigits.

(** [math.acos]: a domain error outside [-1, 1]. *)
Definition acos_checked (x : R) : option R :=
  if Rle_dec (-1) x then if Rle_dec x 1 then Some (acos x) else None
  else None.

#[global] Instance R_Arith : Arith R := {|
  of_Q := Q2R;
  add := Rplus;
  sub := Rminus;
  mul := Rmult;
  div := Rdiv;
  neg := Ropp;
  leb := Rleb;
  is_nan := fun _ => false;
  is_zero := Ris_zero
|}.

#[global] Instance R_Libm : Libm R := {|
  m_pi := PI;
  m_radians := fun x => x * (PI / 180);
  m_sin := sin;
  m_tan := fun x => Some (tan x);
  m_acos := acos_checked
|}.

#[global] Instance R_Round : Round R := {|
  py_round := Rround
|}.

End Ideal.

(* ================================================================= *)
(** ** The contract of [sort_values] *)

Section Ranking.
Context {F : Type} {FA : Arith F}.

(** [a] may stand before [b] in a frame sorted by descending energy: pandas
    puts the rows without a value ([NaN]) last. *)
Definition desc_ok (a b : result F) : bool :=
  is_nan (energy b) || (negb (is_nan (energy a)) && leb (energy b) (energy a)).

Definition energy_desc (a b : result F) : Prop := desc_ok a b = true.

(** What [DataFrame.sort_values] promises for its default [kind]
    ('quicksort'): the rows of the frame, reordered so that the key
    descends.  The order of rows with equal keys is promised only for the
    kinds 'mergesort' and 'stable', which the source does not select. *)
Definition sort_contract (sort : list (result F) -> list (result F)) : Prop :=
  forall l, Permutation l (sort l) /\ StronglySorted energy_desc (sort l).

(** A sort that meets the contract: rows are inserted one by one, each in
    front of the first row it may stand before. *)
Fixpoint insert_row (x : result F) (l : list (result F)) : list (result F) :=
  match l with
  | [] => [x]
  | y :: rest => if desc_ok x y then x :: l else y :: insert_row x rest
  end.

Definition insertion_sort_values (l : list (result F)) : list (result F) :=
  fold_left (fun acc x => insert_row x acc) l [].

End Ranking.

(* ================================================================= *)
(** ** Reference notions used by the statements *)

Section NameSpec.
Context {F : Type} {FA : Arith F}.
Local Open Scope string_scope.

(** The value of an address field that names a place: the field is there
    and its value is not empty. *)
Definition field_name (fields : list (string * json F)) (key : string)
    : option (json F) :=
  match dict_get key fields with
  | Some v => if truthy v then Some v else None
  | None => None
  end.

(** City, then town, then village, then state, else "Unknown". *)
Definition preferred_name (fields : list (string * json F)) : json F :=
  match field_name fields "city" with
  | Some v => v
  | None =>
      match field_name fields "town" with
      | Some v => v
      | None =>
          match field_name fields "village" with
          | Some v => v
          | None =>
              match field_name fields "state" with
              | Some v => v
              | None => JStr "Unknown"
              end
          end
      end
  end.

(** The dict without the key. *)
Definition dict_remove {V : Type} (key : string) (d : list (string * V))
    : list (string * V) :=
  filter (fun kv => negb (String.eqb key (fst kv))) d.

(** The four candidate fields. *)
Definition name_fields : list string := ["city"; "town"; "village"; "state"].

(** The fallback sample of the weather gateway. *)
Definition fallback_sample : json F * F := (JNum (of_Z 25), of_Z 0).

(** A response that [raise_for_status] accepts. *)
Definition status_ok (res : response F) : Prop :=
  ~ (400 <= status_code res < 600)%Z.

End NameSpec.

(** ** Sample inputs *)

Module Samples.
Import Binary64.
Local Open Scope string_scope.

(** A transport that times out, and one that answers [200] with [data]. *)
Definition timing_out : float -> float -> except (response float) :=
  fun _ _ => Raise Timeout.

Definition answering (data : json float) : float -> float -> except (response float) :=
  fun _ _ => Ok {| status_code := 200; body := Some data |}.

Definition city_and_state : json float :=
  JObj [("address", JObj [("city", JStr "Pune"); ("state", JStr "Maharashtra")])].

Definition empty_city_and_state : list (string * json float) :=
  [("city", JStr ""); ("state", JStr "X")].

(** A catalog whose header puts [region] last and whose only record stops
    after the two coordinates. *)
Definition catalog_short_record : csv_table :=
  [["latitude"; "longitude"; "region"]; ["10"; "20"]].

(** A catalog with a good record, a record whose latitude is not a number, a
    blank line and a record that stops after the name. *)
Definition catalog_mixed : csv_table :=
  [["region"; "latitude"; "longitude"];
   ["Pune"; "18.52"; "73.86"];
   ["Nowhere"; "north"; "73.86"];
   [];
   ["Delhi"]].

(** A forecast with the hourly readings 50, 70 and 90. *)
Definition forecast_50_70_90 : json float :=
  JObj [("current_weather", JObj [("temperature", JNum (of_Z 31))]);
        ("hourly", JObj [("cloudcover",
                          JArr [JNum (of_Z 50); JNum (of_Z 70); JNum (of_Z 90)])])].

(** Cloud covers: 50 and the double 2^-12 above it; the double 2^-14 above
    100; the double nearest to 100.001. *)
Definition cloud_50 : float := of_Z 50.
Definition cloud_50_plus : float := fof_Q (204801 # 4096).
Definition cloud_100_plus : float := fof_Q (1638401 # 16384).
Definition cloud_100_001 : float := fof_Q (100001 # 1000).

End Samples.

(** ** Readings and their mean *)

Section MeanSpec.
Context {F : Type} {FA : Arith F}.
Local Open Scope string_scope.

(** The arithmetic mean of a list of readings: their sum, accumulated from
    the left as [sum] does, over their count. *)
Definition arithmetic_mean (readings : list F) : F :=
  div (fold_left add readings (of_Z 0))
      (of_Z (Z.of_nat (List.length readings))).

(** What a payload holds under [hourly.cloudcover], if anything. *)
Definition hourly_cloudcover (data : json F) : option (json F) :=
  match data with
  | JObj fields =>
      match dict_get "hourly" fields with
      | Some (JObj hourly) => dict_get "cloudcover" hourly
      | _ => None
      end
  | _ => None
  end.

(** A JSON array of numbers. *)
Definition readings_array (readings : list F) : json F :=
  JArr (map JNum readings).



End MeanSpec.

(** ** Cells of a catalog row *)

Section CatalogSpec.
Context {F : Type}.
Variable float_of_str : string -> option F.

(** The number in a cell: the column exists, the record reaches it and its
    text is numeric. *)
Definition numeric_cell (row : csv_row) (key : string) : option F :=
  match dict_get key row with
  | Some (Some s) => float_of_str s
  | _ => None
  end.

End CatalogSpec.

(** ** Decimal numerals *)

Module Decimal.

Definition digit_of (c : ascii) : option Z :=
  let n := Z.of_nat (nat_of_ascii c) in
  if ((48 <=? n) && (n <=? 57))%Z then Some (n - 48)%Z else None.

(** Reads the leading digits of [s]: their value on top of [acc], how many
    there are, and the rest of the string. *)
Fixpoint digits (s : string) (acc : Z) (count : nat) : Z * nat * string :=
  match s with
  | EmptyString => (acc, count, s)
  | String c rest =>
      match digit_of c with
      | Some d => digits rest (10 * acc + d)%Z (S count)
      | None => (acc, count, s)
      end
  end.

(** An unsigned numeral [digits], [digits.digits], [digits.] or [.digits]. *)
Definition unsigned (s : string) : option Q :=
  let '(whole, n_whole, rest) := digits s 0%Z 0%nat in
  match rest with
  | EmptyString =>
      match n_whole with O => None | S _ => Some (inject_Z whole) end
  | String "."%char frac_part =>
      let '(all, n_frac, rest') := digits frac_part whole 0%nat in
      match rest', (n_whole + n_frac)%nat with
      | EmptyString, S _ =>
          Some (Qmake all (Z.to_pos (10 ^ Z.of_nat n_frac)))
      | _, _ => None
      end
  | _ => None
  end.

(** A numeral with an optional sign. *)
Definition signed (s : string) : option Q :=
  match s with
  | String "-"%char rest => option_map Qopp (unsigned rest)
  | String "+"%char rest => unsigned rest
  | _ => unsigned s
  end.

(** [float(s)] on the plain decimal numerals.  The other spellings that
    [float] reads (exponents, [inf], [nan], blanks around the numeral, digit
    separators) are left out. *)
Definition float_of_str (s : string) : option Binary64.float :=
  option_map Binary64.fof_Q (signed s).

(** The same over the reals. *)
Definition real_of_str (s : string) : option R :=
  option_map Q2R (signed s).

End Decimal.

(** ** The tangent product of the daylight formula *)


(** ** A ranking pass with the network down *)

Module Offline.
Local Open Scope string_scope.

(** Every request times out. *)
Definition offline : R -> R -> except (response R) :=
  fun _ _ => Raise Timeout.

(** The pass of 21 March, at noon, with the insertion sort as
    [sort_values]. *)
Definition run_pass (fs : files R) : except (list (result R) * files R) :=
  process_and_save_top_regions offline Decimal.real_of_str
    "2026-03-21" 80 "12:00:00" insertion_sort_values fs.

(** Two catalog entries at the same coordinates. *)
Definition catalog_twins : csv_table :=
  [["region"; "latitude"; "longitude"];
   ["A"; "10"; "20"];
   ["B"; "10"; "20"]].

Definition twin_files : files R :=
  {| REGION_FILE := Some catalog_twins; TOP_REGIONS_FILE := None |}.


(** A catalog with a header and no record, next to a snapshot written by an
    earlier pass. *)
Definition catalog_header_only : csv_table :=
  [["region"; "latitude"; "longitude"]].

Definition old_row : result R :=
  {| res_region := Some "Old";
     res_date := "2026-03-20";
     res_time := "12:00:00";
     temp := JNum 25%R;
     cloud := 0%R;
     intensity := 1367%R;
     daylight := 12%R;
     energy := 59.05%R |}.

Definition stale_files : files R :=
  {| REGION_FILE := Some catalog_header_only;
     TOP_REGIONS_FILE := Some [old_row] |}.

End Offline.

(** ** Hardware doubles *)

(** The value of a primitive double of the proof assistant, an IEEE-754
    binary64 computed by the processor, in the representation of
    [Binary64]. *)
Definition of_prim (x : PrimFloat.float) : Binary64.float :=
  match FloatOps.Prim2SF x with
  | SpecFloat.S754_zero _ => Binary64.Fin 0
  | SpecFloat.S754_infinity s => if s then Binary64.NInf else Binary64.PInf
  | SpecFloat.S754_nan => Binary64.NaN
  | SpecFloat.S754_finite s m e =>
      Binary64.Fin ((if s then -1 else 1) * Zpos m * 2 ^ (e + 1074))
  end.

(* ================================================================= *)
(** ** Memoisation: [functools.lru_cache(maxsize=512)] *)

Definition CACHE_SIZE : nat := 512.

Section LruCache.
Variables K V W : Type.

(** [stored_key == key] *)
Variable key_eqb : K -> K -> bool.

(** The decorated function: what it returns for a key and what it does to
    the world [W] around it. *)
Variable user_function : K -> W -> except V * W.

(** The entries of the cache, the most recently used first. *)
Definition lru : Type := list (K * V).

(** The entry of a key, and the other entries in their order. *)
Fixpoint lru_find (key : K) (cache : lru) : option ((K * V) * lru) :=
  match cache with
  | [] => None
  | entry :: rest =>
      if key_eqb key (fst entry) then Some (entry, rest)
      else
        match lru_find key rest with
        | Some (found, others) => Some (found, entry :: others)
        | None => None
        end
  end.

(** A new entry goes to the front; in a full cache the oldest entry makes
    room for it. *)
Definition lru_insert (key : K) (value : V) (cache : lru) : lru :=
  (key, value)
  :: (if (CACHE_SIZE <=? List.length cache)%nat then removelast cache else cache).

(** One call of the wrapper: a hit returns the stored result and moves the
    entry to the front; a miss calls the function and stores what it
    returns; an exception of the function is stored nowhere. *)
Definition lru_call (key : K) (st : lru * W) : except V * (lru * W) :=
  match lru_find key (fst st) with
  | Some (entry, others) => (Ok (snd entry), (entry :: others, snd st))
  | None =>
      match user_function key (snd st) with
      | (Ok value, w) => (Ok value, (lru_insert key value (fst st), w))
      | (Raise e, w) => (Raise e, (fst st, w))
      end
  end.

(** A run of calls, one key after the other. *)
Fixpoint lru_calls (keys : list K) (st : lru * W) : lru * W :=
  match keys with
  | [] => st
  | key :: rest => lru_calls rest (snd (lru_call key st))
  end.

End LruCache.

Section MemoGateways.
Context {F : Type} {FA : Arith F} {FR : Round F}.

(** The forecast service over time: the answer to the request that is sent
    after [sent] earlier ones. *)
Variable open_meteo_at : nat -> F -> F -> except (response F).

(** [x == y] on floats *)
Definition float_eqb (x y : F) : bool := leb x y && leb y x.

(** Equality of the keys [(lat_rounded, lon_rounded)]. *)
Definition coordinates_eqb (a b : F * F) : bool :=
  float_eqb (fst a) (fst b) && float_eqb (snd a) (snd b).

(** The cache of [get_weather_data_cached] and the number of requests sent
    to the service so far. *)
Definition weather_state : Type := lru (F * F) (json F * F) * nat.

(** The body of [get_weather_data_cached] as the function under the
    decorator: it sends one request. *)
Definition weather_function (key : F * F) (sent : nat)
    : except (json F * F) * nat :=
  (get_weather_data_cached (open_meteo_at sent) (fst key) (snd key), S sent).

(** [get_weather_data_cached] with its decorator. *)
Definition memo_get_weather_data_cached (lat_rounded lon_rounded : F)
    (st : weather_state) : except (json F * F) * weather_state :=
  lru_call coordinates_eqb weather_function (lat_rounded, lon_rounded) st.

(** [get_weather_data] on top of it. *)
Definition memo_get_weather_data (lat lon : F) (st : weather_state)
    : except (json F * F) * weather_state :=
  memo_get_weather_data_cached (py_round lat 4) (py_round lon 4) st.

End MemoGateways.

(* ================================================================= *)
(** ** The route [index] *)

(** The three readings of the clock that a computation uses. *)
Record clock : Type := {
  clock_today : string;
  clock_day : Z;
  clock_now : string
}.

(** [request.method] and [request.form]; a form lists its fields in the order
    received and [get] returns the first value of a key. *)
Record request : Type := {
  method : string;
  form : list (string * string)
}.

Fixpoint form_get (key : string) (fields : list (string * string)) : option string :=
  match fields with
  | [] => None
  | (k, v) :: rest => if String.eqb key k then Some v else form_get key rest
  end.

(** [request.form.get(key, "")] *)
Definition form_get_or_empty (key : string) (fields : list (string * string)) : string :=
  match form_get key fields with
  | Some v => v
  | None => EmptyString
  end.

Definition is_empty (s : string) : bool := String.eqb s EmptyString.

Section Route.
Context {F : Type} {FA : Arith F} {FL : Libm F} {FR : Round F}.
Local Open Scope string_scope.

Variable open_meteo : F -> F -> except (response F).
Variable nominatim : F -> F -> except (response F).
Variable float_of_str : string -> option F.

(** [str.strip()] *)
Variable strip : string -> string.

(** The clock as the route reads it for the query, and as the ranking pass
    reads it afterwards. *)
Variable query_clock : clock.
Variable pass_clock : clock.

Variable sort_values : list (result F) -> list (result F).

(** [generate_graphs], which hands the frame to the plotting library. *)
Variable graphs_type : Type.
Variable generate_graphs : list (result F) -> graphs_type.

(** The dictionary [result] of a computed query. *)
Record query_row : Type := {
  q_region : json F;
  q_date : string;
  q_time : string;
  q_temp : json F;
  q_cloud : F;
  q_intensity : F;
  q_daylight : F;
  q_energy : F
}.

Inductive query_result : Type :=
  | QueryError (message : string)
  | QueryRow (row : query_row).

(** A line of [User_Query.csv]. *)
Inductive log_line : Type :=
  | LogHeader (fieldnames : list string)
  | LogRow (row : query_row).

(** [result.keys()] *)
Definition query_fieldnames : list string :=
  ["region"; "date"; "time"; "temp"; "cloud"; "intensity"; "daylight"; "energy"].

(** The files of the site: those of the ranking pass and the query log. *)
Record site : Type := {
  site_files : files F;
  USER_QUERIES_FILE : option (list log_line)
}.

(** The arguments given to [render_template]: [result], the frame of the top
    regions ([None] for the empty string) and [graphs] ([None] for the empty
    dictionary). *)
Record page : Type := {
  page_result : option query_result;
  page_top_regions : option (list (result F));
  page_graphs : option graphs_type
}.

(** [float(s) if s else None] *)
Definition float_or_none (s : string) : except (option F) :=
  if is_empty s then Ok None
  else
    match float_of_str s with
    | Some x => Ok (Some x)
    | None => Raise ValueError
    end.

Local Open Scope except_scope.

(** Lines 188-193: both coordinates are [None] as soon as one of the two
    conversions raises [ValueError]. *)
Definition parse_coordinates (lat_str lon_str : string)
    : except (option F * option F) :=
  try_except
    (latitude <- float_or_none lat_str ;;
     longitude <- float_or_none lon_str ;;
     Ok (latitude, longitude))
    ValueErrorCls
    (Ok (None, None)).

(** Lines 198-200: the name typed in the form, unless it is missing, empty or
    blank. *)
Definition query_region (fields : list (string * string)) (latitude longitude : F)
    : except (json F) :=
  match form_get "region" fields with
  | Some r =>
      if is_empty r || is_empty (strip r)
      then get_region_name_from_coords nominatim latitude longitude
      else Ok (JStr r)
  | None => get_region_name_from_coords nominatim latitude longitude
  end.

(** Lines 222-227: the header goes in front of the row when the file does
    not exist yet; the file is opened for appending. *)
Definition append_query (row : query_row) (log : option (list log_line))
    : option (list log_line) :=
  match log with
  | None => Some [LogHeader query_fieldnames; LogRow row]
  | Some lines => Some (lines ++ [LogRow row])%list
  end.

Definition error_message : string :=
  "Please allow location access or enter latitude/longitude.".

Definition index (req : request) (st : site) : except (page * site) :=
  if String.eqb (method req) "POST" then
    let lat_str := strip (form_get_or_empty "latitude" (form req)) in
    let lon_str := strip (form_get_or_empty "longitude" (form req)) in
    coordinates <- parse_coordinates lat_str lon_str ;;
    match coordinates with
    | (Some latitude, Some longitude) =>
        region <- query_region (form req) latitude longitude ;;
        let decl := declination_angle (clock_day query_clock) in
        let daylight := daylight_hours latitude decl in
        w <- get_weather_data open_meteo latitude longitude ;;
        let intensity := solar_intensity (snd w) in
        let energy_output := calculate_energy intensity daylight in
        let row := {| q_region := region;
                      q_date := clock_today query_clock;
                      q_time := clock_now query_clock;
                      q_temp := fst w;
                      q_cloud := py_round (snd w) 2;
                      q_intensity := intensity;
                      q_daylight := py_round daylight 2;
                      q_energy := energy_output |} in
        let log := append_query row (USER_QUERIES_FILE st) in
        ranked <- process_and_save_top_regions open_meteo float_of_str
                    (clock_today pass_clock) (clock_day pass_clock)
                    (clock_now pass_clock) sort_values (site_files st) ;;
        let top_regions_df := fst ranked in
        let graphs := match top_regions_df with
                      | [] => None
                      | _ :: _ => Some (generate_graphs top_regions_df)
                      end in
        Ok ({| page_result := Some (QueryRow row);
               page_top_regions := Some top_regions_df;
               page_graphs := graphs |},
            {| site_files := snd ranked; USER_QUERIES_FILE := log |})
    | _ =>
        Ok ({| page_result := Some (QueryError error_message);
               page_top_regions := None;
               page_graphs := None |}, st)
    end
  else
    Ok ({| page_result := None; page_top_regions := None; page_graphs := None |},
        st).

(** The requests of a run, served one after the other. *)
Fixpoint serve (requests : list request) (st : site) : except site :=
  match requests with
  | [] => Ok st
  | req :: rest =>
      served <- index req st ;;
      serve rest (snd served)
  end.

(** A request that passes the validation of the coordinates. *)
Definition computes (req : request) : bool :=
  String.eqb (method req) "POST"
  && match parse_coordinates
             (strip (form_get_or_empty "latitude" (form req)))
             (strip (form_get_or_empty "longitude" (form req))) with
     | Ok (Some _, Some _) => true
     | _ => false
     end.

Definition is_row (line : log_line) : bool :=
  match line with LogRow _ => true | LogHeader _ => false end.

End Route.

Arguments query_row F : clear implicits.
Arguments query_result F : clear implicits.
Arguments log_line F : clear implicits.
Arguments site F : clear implicits.
Arguments page F : clear implicits.

(* ================================================================= *)
(** ** The shape of the query log *)

Section LogSpec.
Context {F : Type}.

(** A log that starts with the header and has only rows after it. *)
Definition header_once (log : option (list (log_line F))) : Prop :=
  match log with
  | None => True
  | Some [] => False
  | Some (first :: rows) =>
      first = LogHeader query_fieldnames /\ forallb (@is_row F) rows = true
  end.

(** The number of rows of a log. *)
Definition logged_rows (log : option (list (log_line F))) : nat :=
  match log with
  | None => 0
  | Some lines => List.length (filter (@is_row F) lines)
  end.

End LogSpec.

(** ** The entries of a cache *)

Section LruSpec.
Variables K V : Type.
Variable key_eqb : K -> K -> bool.

(** The place of the entry of a key, counted from the most recently used
    entry, and the value stored there. *)
Fixpoint lru_entry (key : K) (cache : lru K V) : option (nat * V) :=
  match cache with
  | [] => None
  | entry :: rest =>
      if key_eqb key (fst entry) then Some (0%nat, snd entry)
      else
        match lru_entry key rest with
        | Some (i, v) => Some (S i, v)
        | None => None
        end
  end.

(** No two entries have equal keys. *)
Definition lru_distinct (cache : lru K V) : Prop :=
  ForallOrdPairs (fun a b => key_eqb (fst a) (fst b) = false) cache.

End LruSpec.

(** ** Percentages *)

(** A double between 0 and 100. *)
Definition percent (r : Binary64.float) : Prop :=
  Binary64.fle (of_Z 0) r /\ Binary64.fle r (of_Z 100).

(** ** Well-formed catalogs and readings *)

Section WellFormed.
Context {F : Type}.
Variable float_of_str : string -> option F.

(** A record of three fields -- a name and two numerals -- and the entry it
    stands for. *)
Definition record_of_entry (record : list string) (entry : region_entry F)
    : Prop :=
  exists name lat_str lon_str,
    record = [name; lat_str; lon_str]
    /\ region entry = Some name
    /\ float_of_str lat_str = Some (latitude entry)
    /\ float_of_str lon_str = Some (longitude entry).

(** What [sum] can add: a number or a boolean. *)
Definition is_number (v : json F) : bool :=
  match v with JNum _ | JBool _ => true | _ => false end.

End WellFormed.

(** The header of the catalog as the pass expects it. *)
Definition catalog_header : list string :=
  ["region"; "latitude"; "longitude"]%string.

(** ** A day of requests with the network down *)

Module Visits.
Local Open Scope string_scope.

(** [str.strip()] on ASCII text, whose blanks are the characters 9 to 13 and
    28 to 32. *)
Definition is_space (c : ascii) : bool :=
  let n := nat_of_ascii c in
  ((9 <=? n) && (n <=? 13) || (28 <=? n) && (n <=? 32))%nat.

Fixpoint lstrip (s : string) : string :=
  match s with
  | EmptyString => EmptyString
  | String c rest => if is_space c then lstrip rest else s
  end.

Fixpoint rstrip (s : string) : string :=
  match s with
  | EmptyString => EmptyString
  | String c rest =>
      match rstrip rest with
      | EmptyString => if is_space c then EmptyString else String c EmptyString
      | kept => String c kept
      end
  end.

Definition strip (s : string) : string := rstrip (lstrip s).

(** 21 March, at noon. *)
Definition noon : clock :=
  {| clock_today := "2026-03-21"; clock_day := 80; clock_now := "12:00:00" |}.

(** The titles under which [generate_graphs] files its figures. *)
Definition graph_titles (df : list (result R)) : list string :=
  ["Correlation Heatmap"; "Top Cities by Energy"; "Energy vs Temperature";
   "Cloud Cover Effect"; "Daylight vs Energy"].

(** The route and a run of requests, with both services out of reach and
    the insertion sort as [sort_values]. *)
Definition route (req : request) (st : site R)
    : except (page R (list string) * site R) :=
  index Offline.offline Offline.offline Decimal.real_of_str strip noon noon
    insertion_sort_values graph_titles req st.

Definition serve_all (requests : list request) (st : site R) : except (site R) :=
  serve Offline.offline Offline.offline Decimal.real_of_str strip noon noon
    insertion_sort_values graph_titles requests st.

(** Opening the page; a query with a name; a query whose name is blank; a
    query without a latitude. *)
Definition opening : request := {| method := "GET"; form := [] |}.

Definition named_query : request :=
  {| method := "POST";
     form := [("latitude", " 10 "); ("longitude", "20"); ("region", "Pune")] |}.

Definition unnamed_query : request :=
  {| method := "POST";
     form := [("latitude", "10"); ("longitude", "20"); ("region", "  ")] |}.

Definition incomplete_query : request :=
  {| method := "POST"; form := [("latitude", ""); ("longitude", "20")] |}.

(** The site before its first query: the catalog of two entries and no log. *)
Definition first_day : site R :=
  {| site_files := Offline.twin_files; USER_QUERIES_FILE := None |}.

End Visits.

(** ** Forecast services over time *)

Module Forecasts.
Import Binary64.

(** A service that answers every request with the same forecast. *)
Definition steady (sent : nat) : float -> float -> except (response float) :=
  Samples.answering Samples.forecast_50_70_90.

(** A service that times out on the first request and answers from the
    second on. *)
Definition recovering (sent : nat) : float -> float -> except (response float) :=
  match sent with
  | O => Samples.timing_out
  | S _ => Samples.answering Samples.forecast_50_70_90
  end.

(** Two places, and a point that differs from the first in the fifth
    decimal. *)
Definition pune : float * float := (fof_Q (1852 # 100), fof_Q (7386 # 100)).
Definition delhi : float * float := (fof_Q (2861 # 100), fof_Q (7721 # 100)).
Definition near_pune : float * float :=
  (fof_Q (1852004 # 100000), fof_Q (7385996 # 100000)).

(** A forecast whose second hourly reading is missing. *)
Definition forecast_with_gap : json float :=
  JObj [("current_weather", JObj [("temperature", JNum (of_Z 31))]);
        ("hourly", JObj [("cloudcover",
                          JArr [JNum (of_Z 50); JNull; JNum (of_Z 90)])])]%string.

(** The catalog of the two places, and its entries. *)
Definition catalog_records : list (list string) :=
  [["Pune"; "18.52"; "73.86"]; ["Delhi"; "28.61"; "77.21"]]%string.

Definition catalog_entries : list (region_entry float) :=
  [ {| region := Some "Pune"%string;
       latitude := fst pune; longitude := snd pune |};
    {| region := Some "Delhi"%string;
       latitude := fst delhi; longitude := snd delhi |} ].

(** Nothing cached, nothing sent. *)
Definition cold : weather_state (F := float) := ([], 0%nat).

End Forecasts.

(* ================================================================= *)
(** * Properties *)

Unset Implicit Arguments.

(** ** Exceptions *)

Lemma try_except_Exception_ok {A : Type} (body handler : except A) (h : A) :
  handler = Ok h ->
  exists v, try_except body ExceptionCls handler = Ok v.
Proof.
  intros ->. destruct body as [a | e]; simpl; eauto.
Qed.

Lemma try_except_Exception_raise {A : Type} (body handler : except A) (e : exn) :
  body = Raise e ->
  try_except body ExceptionCls handler = handler.
Proof.
  intros ->. reflexivity.
Qed.


Lemma raise_for_status_ok {F : Type} (res : response F) :
  status_ok res -> raise_for_status res = Ok tt.
Proof.
  unfold status_ok, raise_for_status. intros Hok.
  destruct (400 <=? status_code res)%Z eqn:Hlo; simpl; [| reflexivity].
  destruct (status_code res <? 600)%Z eqn:Hhi; [| reflexivity].
  exfalso. apply Hok. split; [apply Z.leb_le | apply Z.ltb_lt]; assumption.
Qed.

(** ** The weather gateway *)

Section WeatherGateway.
Context {F : Type} {FA : Arith F}.
Variable open_meteo : F -> F -> except (response F).

Lemma weather_body_transport (lat lon : F) (e : exn) :
  open_meteo lat lon = Raise e -> weather_body open_meteo lat lon = Raise e.
Proof.
  intros H. unfold weather_body. rewrite H. reflexivity.
Qed.




Lemma get_weather_data_cached_returns (lat lon : F) :
  exists sample, get_weather_data_cached open_meteo lat lon = Ok sample.
Proof.
  unfold get_weather_data_cached.
  eapply try_except_Exception_ok. reflexivity.
Qed.


End WeatherGateway.


(** ** The geocoding gateway *)

Section GeoNameGateway.
Context {F : Type} {FA : Arith F}.
Variable nominatim : F -> F -> except (response F).
Local Open Scope string_scope.

Lemma py_or_field (fields : list (string * json F)) (key : string)
    (rest : except (json F)) :
  bind (py_get (JObj fields) key JNull) (fun v => py_or v rest)
  = match field_name fields key with
    | Some v => Ok v
    | None => rest
    end.
Proof.
  unfold py_get, field_name, py_or. simpl.
  destruct (dict_get key fields) as [v |]; [| reflexivity].
  destruct (truthy v); reflexivity.
Qed.

Lemma address_name_dict (fields : list (string * json F)) :
  address_name (JObj fields) = Ok (preferred_name fields).
Proof.
  unfold address_name, preferred_name.
  repeat rewrite py_or_field.
  destruct (field_name fields "city"); [reflexivity |].
  destruct (field_name fields "town"); [reflexivity |].
  destruct (field_name fields "village"); [reflexivity |].
  destruct (field_name fields "state"); reflexivity.
Qed.

Lemma field_name_truthy (fields : list (string * json F)) (key : string)
    (v : json F) :
  field_name fields key = Some v -> truthy v = true.
Proof.
  unfold field_name. destruct (dict_get key fields) as [w |]; [| discriminate].
  destruct (truthy w) eqn:Hw; [| discriminate].
  intros H. injection H as <-. exact Hw.
Qed.

Lemma preferred_name_truthy (fields : list (string * json F)) :
  truthy (preferred_name fields) = true.
Proof.
  unfold preferred_name.
  destruct (field_name fields "city") eqn:H1;
    [exact (field_name_truthy _ _ _ H1) |].
  destruct (field_name fields "town") eqn:H2;
    [exact (field_name_truthy _ _ _ H2) |].
  destruct (field_name fields "village") eqn:H3;
    [exact (field_name_truthy _ _ _ H3) |].
  destruct (field_name fields "state") eqn:H4;
    [exact (field_name_truthy _ _ _ H4) |].
  reflexivity.
Qed.

Lemma address_name_truthy (addr name : json F) :
  address_name addr = Ok name -> truthy name = true.
Proof.
  destruct addr; try discriminate.
  rewrite address_name_dict. intros H. injection H as <-.
  apply preferred_name_truthy.
Qed.

Lemma region_name_body_payload (lat lon : F) (res : response F) (data : json F) :
  nominatim lat lon = Ok res ->
  status_ok res ->
  body res = Some data ->
  region_name_body nominatim lat lon
  = bind (py_get data "address" (JObj [])) address_name.
Proof.
  intros H Hs Hb. unfold region_name_body. rewrite H. simpl.
  rewrite (raise_for_status_ok res Hs). simpl.
  unfold res_json. rewrite Hb. reflexivity.
Qed.

Lemma region_name_body_truthy (lat lon : F) (name : json F) :
  region_name_body nominatim lat lon = Ok name -> truthy name = true.
Proof.
  unfold region_name_body.
  destruct (nominatim lat lon) as [res | e]; [simpl | discriminate].
  destruct (raise_for_status res); [simpl | discriminate].
  destruct (res_json res) as [data | e]; [simpl | discriminate].
  destruct (py_get data "address" (JObj [])) as [addr | e]; [simpl | discriminate].
  apply address_name_truthy.
Qed.

(** C6. The resolved name follows the preference order city, town, village,
    state over the fields of the address object that carry a name; with none
    of the four present it is "Unknown"; and any failure -- an exception of
    the transport (connection error, timeout), an error status, a body that
    is not JSON, a payload on which the extraction raises -- gives "Unknown"
    as well, a value being returned in every case. *)
Theorem region_name_preference_order (lat lon : F) :
  (exists name, get_region_name_from_coords_cached nominatim lat lon = Ok name)
  /\ (forall res data fields,
        nominatim lat lon = Ok res -> status_ok res -> body res = Some data ->
        py_get data "address" (JObj []) = Ok (JObj fields) ->
        get_region_name_from_coords_cached nominatim lat lon
        = Ok (preferred_name fields))
  /\ (forall fields : list (string * json F),
        (forall key, In key name_fields -> dict_get key fields = None) ->
        address_name (JObj fields) = Ok (JStr "Unknown"))
  /\ (forall e, region_name_body nominatim lat lon = Raise e ->
        get_region_name_from_coords_cached nominatim lat lon
        = Ok (JStr "Unknown"))
  /\ (forall e, nominatim lat lon = Raise e ->
        get_region_name_from_coords_cached nominatim lat lon
        = Ok (JStr "Unknown"))
  /\ (forall res, nominatim lat lon = Ok res ->
        (400 <= status_code res < 600)%Z \/ body res = None ->
        get_region_name_from_coords_cached nominatim lat lon
        = Ok (JStr "Unknown")).
Proof.
  unfold get_region_name_from_coords_cached.
  split; [| split; [| split; [| split; [| split]]]].
  - eapply try_except_Exception_ok. reflexivity.
  - intros res data fields H Hs Hb Ha.
    rewrite (region_name_body_payload lat lon res data H Hs Hb).
    rewrite Ha. simpl. rewrite address_name_dict. reflexivity.
  - intros fields Habsent. rewrite address_name_dict. f_equal.
    unfold preferred_name, field_name, name_fields in *.
    rewrite !Habsent by (simpl; tauto). reflexivity.
  - intros e He. rewrite He. reflexivity.
  - intros e He. unfold region_name_body. rewrite He. reflexivity.
  - intros res H Hbad. unfold region_name_body. rewrite H. simpl.
    unfold raise_for_status, res_json.
    destruct ((400 <=? status_code res)%Z && (status_code res <? 600)%Z) eqn:Hst;
      [reflexivity |].
    simpl. destruct Hbad as [[Hlo Hhi] | Hb].
    + apply Z.leb_le in Hlo. apply Z.ltb_lt in Hhi.
      rewrite Hlo, Hhi in Hst. discriminate.
    + rewrite Hb. reflexivity.
Qed.

Lemma dict_get_remove_same {V : Type} (key : string) (d : list (string * V)) :
  dict_get key (dict_remove key d) = None.
Proof.
  induction d as [| [k v] d IH]; [reflexivity |].
  unfold dict_remove in *. simpl.
  destruct (String.eqb key k) eqn:Hk; simpl; [exact IH |].
  rewrite IH, Hk. reflexivity.
Qed.

Lemma dict_get_remove_other {V : Type} (key other : string)
    (d : list (string * V)) :
  other <> key ->
  dict_get other (dict_remove key d) = dict_get other d.
Proof.
  intros Hne. induction d as [| [k v] d IH]; [reflexivity |].
  unfold dict_remove in *. simpl.
  destruct (String.eqb key k) eqn:Hk; simpl.
  - apply String.eqb_eq in Hk. subst k. rewrite IH.
    destruct (dict_get other d); [reflexivity |].
    destruct (String.eqb other key) eqn:Ho; [| reflexivity].
    apply String.eqb_eq in Ho. contradiction.
  - rewrite IH. reflexivity.
Qed.

Lemma field_name_remove_empty (fields : list (string * json F))
    (key other : string) :
  dict_get key fields = Some (JStr "") ->
  field_name (dict_remove key fields) other = field_name fields other.
Proof.
  intros Hempty. unfold field_name.
  destruct (String.eqb other key) eqn:Ho.
  - apply String.eqb_eq in Ho. subst other.
    rewrite dict_get_remove_same, Hempty. reflexivity.
  - apply String.eqb_neq in Ho.
    rewrite (dict_get_remove_other key other fields Ho). reflexivity.
Qed.

End GeoNameGateway.

(** An address that has both a city and a state, answered with status 200. *)
Lemma region_name_preference_order_witness :
  get_region_name_from_coords_cached
    (Samples.answering Samples.city_and_state) (of_Z 10) (of_Z 20)
  = Ok (JStr "Pune").
Proof.
  apply (proj1 (proj2 (region_name_preference_order
           (Samples.answering Samples.city_and_state) (of_Z 10) (of_Z 20)))
           {| status_code := 200; body := Some Samples.city_and_state |}
           Samples.city_and_state
           [("city", JStr "Pune"); ("state", JStr "Maharashtra")]%string).
  - reflexivity.
  - unfold status_ok. simpl. lia.
  - reflexivity.
  - reflexivity.
Defined.

(** C9. An address field that is present but holds the empty string counts
    as absent: the chain gives the same name as for the address without the
    field, so city "" with state "X" resolves to "X"; and no response at all
    makes the gateway return the empty string. *)
Theorem empty_address_field_falls_through :
  forall (F : Type) (FA : Arith F),
    (forall (fields : list (string * json F)) (key : string),
        In key name_fields ->
        dict_get key fields = Some (JStr "") ->
        address_name (JObj fields)
        = address_name (JObj (dict_remove key fields)))
    /\ address_name (F := F)
         (JObj [("city", JStr ""); ("state", JStr "X")]%string)
       = Ok (JStr "X")
    /\ (forall (nominatim : F -> F -> except (response F)) (lat lon : F),
          get_region_name_from_coords_cached nominatim lat lon
          <> Ok (JStr "")).
Proof.
  intros F FA. split; [| split].
  - intros fields key _ Hempty.
    rewrite !address_name_dict. f_equal. unfold preferred_name.
    rewrite !(field_name_remove_empty fields key _ Hempty). reflexivity.
  - reflexivity.
  - intros nominatim lat lon Heq.
    unfold get_region_name_from_coords_cached, try_except in Heq.
    destruct (region_name_body nominatim lat lon) as [name | e] eqn:Hbody.
    + injection Heq as ->.
      apply region_name_body_truthy in Hbody. discriminate.
    + simpl in Heq. discriminate.
Qed.

(** The address with an empty city and the state "X". *)
Lemma empty_address_field_falls_through_witness :
  address_name (JObj Samples.empty_city_and_state)
  = address_name (JObj (dict_remove "city" Samples.empty_city_and_state)).
Proof.
  apply (proj1 (empty_address_field_falls_through Binary64.float _)).
  - simpl. tauto.
  - reflexivity.
Defined.

(** ** Cloud cover *)

Section CloudCover.
Context {F : Type} {FA : Arith F}.
Local Open Scope string_scope.

Lemma sum_from_numbers (readings : list F) (acc : F) :
  sum_from acc (map JNum readings) = Ok (fold_left add readings acc).
Proof.
  revert acc. induction readings as [| r rs IH]; intros acc; simpl.
  - reflexivity.
  - apply IH.
Qed.

Lemma average_clouds_readings (readings : list F) :
  readings <> [] ->
  average_clouds (readings_array readings) = Ok (arithmetic_mean readings).
Proof.
  intros Hne. unfold average_clouds, readings_array, arithmetic_mean.
  destruct readings as [| r rs]; [contradiction |].
  cbn [truthy map]. cbn [py_sum py_len].
  change (JNum r :: map JNum rs) with (map (@JNum F) (r :: rs)).
  rewrite sum_from_numbers. rewrite length_map. reflexivity.
Qed.





End CloudCover.




(** ** The region catalog *)

Section RegionCatalog.
Context {F : Type}.
Variable float_of_str : string -> option F.
Local Open Scope string_scope.

Lemma read_rows_app (rows1 rows2 : list csv_row) :
  read_rows float_of_str (rows1 ++ rows2)%list
  = (read_rows float_of_str rows1 ++ read_rows float_of_str rows2)%list.
Proof.
  induction rows1 as [| row rows1 IH]; simpl; [reflexivity |].
  destruct (region_of_row float_of_str row); simpl; rewrite IH; reflexivity.
Qed.

Lemma py_float_numeric (row : csv_row) (key : string) :
  bind (row_item row key) (py_float float_of_str)
  = match numeric_cell float_of_str row key with
    | Some x => Ok x
    | None =>
        match dict_get key row with
        | None => Raise KeyError
        | Some None => Raise TypeError
        | Some (Some _) => Raise ValueError
        end
    end.
Proof.
  unfold row_item, numeric_cell, py_float.
  destruct (dict_get key row) as [[s |] |]; simpl; try reflexivity.
Qed.

Lemma region_of_row_spec (row : csv_row) :
  region_of_row float_of_str row
  = match dict_get "region" row with
    | None => Raise KeyError
    | Some name =>
        bind (bind (row_item row "latitude") (py_float float_of_str))
          (fun lat =>
             bind (bind (row_item row "longitude") (py_float float_of_str))
               (fun lon =>
                  Ok {| region := name; latitude := lat; longitude := lon |}))
    end.
Proof.
  unfold region_of_row, row_item at 1.
  destruct (dict_get "region" row) as [name |]; simpl; [| reflexivity].
  destruct (row_item row "latitude") as [c1 | e]; simpl; [| reflexivity].
  destruct (py_float float_of_str c1) as [lat | e]; simpl; [| reflexivity].
  destruct (row_item row "longitude") as [c2 | e]; simpl; reflexivity.
Qed.

Lemma region_of_row_skipped (row : csv_row) :
  dict_get "region" row = None
  \/ numeric_cell float_of_str row "latitude" = None
  \/ numeric_cell float_of_str row "longitude" = None ->
  exists e, region_of_row float_of_str row = Raise e.
Proof.
  intros H. rewrite region_of_row_spec.
  destruct (dict_get "region" row) as [name |]; [| eauto].
  rewrite !py_float_numeric.
  destruct H as [H | [H | H]]; [discriminate | |].
  - rewrite H.
    destruct (dict_get "latitude" row) as [[s |] |]; simpl; eauto.
  - destruct (numeric_cell float_of_str row "latitude") as [lat |]; simpl.
    + rewrite H.
      destruct (dict_get "longitude" row) as [[s |] |]; simpl; eauto.
    + destruct (dict_get "latitude" row) as [[s |] |]; simpl; eauto.
Qed.

Lemma region_of_row_kept (row : csv_row) (name : option string) (lat lon : F) :
  dict_get "region" row = Some name ->
  numeric_cell float_of_str row "latitude" = Some lat ->
  numeric_cell float_of_str row "longitude" = Some lon ->
  region_of_row float_of_str row
  = Ok {| region := name; latitude := lat; longitude := lon |}.
Proof.
  intros Hn Hlat Hlon. rewrite region_of_row_spec, Hn.
  rewrite !py_float_numeric, Hlat. simpl. rewrite Hlon. reflexivity.
Qed.

(** C8 (amended). [read_regions] returns the empty list when the file does
    not exist.  A row is dropped, leaving the rows around it as they are,
    when the header has no [region] column or when its latitude or longitude
    is missing or not numeric; every other row is kept, with the name found
    in its [region] cell -- also when that cell is the [None] of a record too
    short to reach the column. *)
Theorem read_regions_skips_bad_rows :
  read_regions float_of_str None = []
  /\ (forall (before after : list csv_row) (row : csv_row),
        dict_get "region" row = None
        \/ numeric_cell float_of_str row "latitude" = None
        \/ numeric_cell float_of_str row "longitude" = None ->
        read_rows float_of_str (before ++ row :: after)%list
        = (read_rows float_of_str before ++ read_rows float_of_str after)%list)
  /\ (forall (before after : list csv_row) (row : csv_row)
             (name : option string) (lat lon : F),
        dict_get "region" row = Some name ->
        numeric_cell float_of_str row "latitude" = Some lat ->
        numeric_cell float_of_str row "longitude" = Some lon ->
        read_rows float_of_str (before ++ row :: after)%list
        = (read_rows float_of_str before
           ++ {| region := name; latitude := lat; longitude := lon |}
              :: read_rows float_of_str after)%list).
Proof.
  split; [reflexivity | split].
  - intros before after row Hbad. rewrite read_rows_app. simpl.
    destruct (region_of_row_skipped row Hbad) as [e ->]. reflexivity.
  - intros before after row name lat lon Hn Hlat Hlon.
    rewrite read_rows_app. simpl.
    rewrite (region_of_row_kept row name lat lon Hn Hlat Hlon). reflexivity.
Qed.

End RegionCatalog.

(** The mixed catalog: of its three records only the first survives. *)
Lemma read_regions_skips_bad_rows_witness :
  read_rows Decimal.float_of_str
    ([] ++ [("region", Some "Nowhere"); ("latitude", Some "north");
            ("longitude", Some "73.86")]
        :: DictReader [["region"; "latitude"; "longitude"];
                       ["Pune"; "18.52"; "73.86"]])%list%string
  = ([] ++ read_rows Decimal.float_of_str
             (DictReader [["region"; "latitude"; "longitude"];
                          ["Pune"; "18.52"; "73.86"]]))%list%string
  /\ map (@region _) (read_regions Decimal.float_of_str
                        (Some Samples.catalog_mixed))
     = [Some "Pune"%string].
Proof.
  split.
  - apply (proj1 (proj2 (read_regions_skips_bad_rows Decimal.float_of_str))
             [] _ _).
    right. left. reflexivity.
  - vm_compute. reflexivity.
Defined.

(** C8, as stated, fails: the only record of this catalog has no value for
    the required field [region], and it is not skipped. *)
Lemma short_record_without_region_is_kept :
  DictReader Samples.catalog_short_record
  = [[("latitude", Some "10"); ("longitude", Some "20"); ("region", None)]]%string
  /\ read_regions Decimal.float_of_str (Some Samples.catalog_short_record)
     = [{| region := None; latitude := of_Z 10; longitude := of_Z 20 |}].
Proof.
  split; vm_compute; reflexivity.
Qed.

(** ** Double precision: rounding and order *)

Module Binary64Facts.
Import Binary64.
Local Open Scope Z_scope.

Lemma unit_scale_pos : 0 < unit_scale.
Proof. reflexivity. Qed.

Lemma overflow_threshold_pos : 0 < overflow_threshold.
Proof. reflexivity. Qed.

(** *** Rounding to the nearest integer *)

Lemma round_half_even_bounds (n d : Z) :
  0 < d -> n / d <= round_half_even n d <= n / d + 1.
Proof.
  intros Hd. unfold round_half_even.
  destruct (2 * (n mod d) ?= d); [destruct (Z.even (n / d)) | |]; lia.
Qed.

Lemma round_half_even_mono (n1 n2 d : Z) :
  0 < d -> n1 <= n2 -> round_half_even n1 d <= round_half_even n2 d.
Proof.
  intros Hd Hle.
  pose proof (Z.div_le_mono n1 n2 d Hd Hle) as Hq.
  destruct (Z.eq_dec (n1 / d) (n2 / d)) as [Heq | Hne].
  - pose proof (Z.div_mod n1 d ltac:(lia)) as E1.
    pose proof (Z.div_mod n2 d ltac:(lia)) as E2.
    unfold round_half_even. rewrite <- Heq in *.
    destruct (Z.compare_spec (2 * (n1 mod d)) d);
      destruct (Z.compare_spec (2 * (n2 mod d)) d);
      destruct (Z.even (n1 / d)); lia.
  - pose proof (round_half_even_bounds n1 d Hd).
    pose proof (round_half_even_bounds n2 d Hd). lia.
Qed.

Lemma round_half_even_exact (m d : Z) :
  0 < d -> round_half_even (m * d) d = m.
Proof.
  intros Hd. unfold round_half_even.
  rewrite Z.div_mul by lia. rewrite Z.mod_mul by lia.
  destruct (Z.compare_spec (2 * 0) d); lia.
Qed.

Lemma round_half_even_opp (n d : Z) :
  0 < d -> round_half_even (- n) d = - round_half_even n d.
Proof.
  intros Hd. unfold round_half_even.
  destruct (Z.eq_dec (n mod d) 0) as [Hz | Hnz].
  - rewrite (Z.div_opp_l_z n d) by lia.
    rewrite (Z.mod_opp_l_z n d) by lia. rewrite Hz.
    destruct (Z.compare_spec (2 * 0) d); lia.
  - rewrite (Z.div_opp_l_nz n d) by lia.
    rewrite (Z.mod_opp_l_nz n d) by lia.
    pose proof (Z.mod_pos_bound n d Hd).
    destruct (Z.compare_spec (2 * (d - n mod d)) d);
      destruct (Z.compare_spec (2 * (n mod d)) d); try lia.
    replace (- (n / d) - 1) with (- (n / d + 1)) by lia.
    rewrite Z.even_opp, Z.even_add. simpl.
    destruct (Z.even (n / d)); simpl; lia.
Qed.

Lemma round_half_even_nonneg (n d : Z) :
  0 < d -> 0 <= n -> 0 <= round_half_even n d.
Proof.
  intros Hd Hn. pose proof (round_half_even_bounds n d Hd).
  pose proof (Z.div_pos n d Hn Hd). lia.
Qed.

(** *** Rounding to a double *)

Lemma round_units_shift (n d : Z) :
  round_units n d = 2 ^ shift n d * round_half_even n (d * 2 ^ shift n d).
Proof. reflexivity. Qed.

Lemma shift_nonneg (n d : Z) : 0 <= shift n d.
Proof. unfold shift. lia. Qed.

Lemma shift_mono (n1 n2 d : Z) :
  0 < d -> 0 <= n1 <= n2 -> shift n1 d <= shift n2 d.
Proof.
  intros Hd H. unfold shift.
  rewrite !Z.abs_eq by lia.
  pose proof (Z.div_le_mono n1 n2 d Hd ltac:(lia)) as Hq.
  pose proof (Z.log2_le_mono _ _ Hq). lia.
Qed.

Lemma shift_upper (n d : Z) :
  0 < d -> 0 <= n -> n < d * 2 ^ (shift n d + 53).
Proof.
  intros Hd Hn. unfold shift. rewrite Z.abs_eq by lia.
  set (a := n / d).
  assert (Ha : 0 <= a) by (apply Z.div_pos; lia).
  assert (Hlt : a < 2 ^ (Z.max 0 (Z.log2 a - 52) + 53)).
  { destruct (Z.eq_dec a 0) as [-> | Hnz].
    - apply Z.pow_pos_nonneg; cbn; lia.
    - pose proof (Z.log2_spec a ltac:(lia)) as [_ Hup].
      eapply Z.lt_le_trans; [exact Hup |].
      apply Z.pow_le_mono_r; [lia |].
      pose proof (Z.log2_nonneg a). lia. }
  destruct (Z.lt_ge_cases n (d * 2 ^ (Z.max 0 (Z.log2 a - 52) + 53)))
    as [Hok | Hbad]; [exact Hok |].
  apply (Z.div_le_lower_bound n d _ Hd) in Hbad. fold a in Hbad. lia.
Qed.

Lemma shift_lower (n d : Z) :
  0 < d -> 0 <= n -> 0 < shift n d -> d * 2 ^ (shift n d + 52) <= n.
Proof.
  intros Hd Hn. unfold shift. rewrite Z.abs_eq by lia.
  set (a := n / d). intros Hs.
  assert (Hs' : Z.max 0 (Z.log2 a - 52) = Z.log2 a - 52) by lia.
  rewrite Hs'. replace (Z.log2 a - 52 + 52) with (Z.log2 a) by lia.
  assert (Ha : 0 < a).
  { destruct (Z.lt_ge_cases 0 a) as [|Hle]; [assumption |].
    rewrite (Z.log2_nonpos a Hle) in Hs. lia. }
  pose proof (Z.log2_spec a Ha) as [Hlo _].
  pose proof (Z.mul_div_le n d Hd). fold a in H.
  nia.
Qed.

Lemma round_units_nonneg (n d : Z) :
  0 < d -> 0 <= n -> 0 <= round_units n d.
Proof.
  intros Hd Hn. rewrite round_units_shift.
  pose proof (shift_nonneg n d).
  apply Z.mul_nonneg_nonneg.
  - apply Z.pow_nonneg. lia.
  - apply round_half_even_nonneg; [| assumption].
    apply Z.mul_pos_pos; [assumption | apply Z.pow_pos_nonneg; lia].
Qed.

Lemma round_units_opp (n d : Z) :
  0 < d -> round_units (- n) d = - round_units n d.
Proof.
  intros Hd. unfold round_units, shift. rewrite Z.abs_opp.
  rewrite round_half_even_opp; [lia |].
  apply Z.mul_pos_pos; [assumption | apply Z.pow_pos_nonneg; lia].
Qed.

Lemma round_units_mono_nonneg (n1 n2 d : Z) :
  0 < d -> 0 <= n1 <= n2 -> round_units n1 d <= round_units n2 d.
Proof.
  intros Hd H. rewrite !round_units_shift.
  pose proof (shift_mono n1 n2 d Hd H) as Hs.
  pose proof (shift_nonneg n1 d) as Hs1.
  set (s1 := shift n1 d) in *. set (s2 := shift n2 d) in *.
  assert (Hp1 : 0 < 2 ^ s1) by (apply Z.pow_pos_nonneg; lia).
  assert (Hp2 : 0 < 2 ^ s2) by (apply Z.pow_pos_nonneg; lia).
  assert (Hd1 : 0 < d * 2 ^ s1) by (apply Z.mul_pos_pos; assumption).
  assert (Hd2 : 0 < d * 2 ^ s2) by (apply Z.mul_pos_pos; assumption).
  destruct (Z.eq_dec s1 s2) as [Heq | Hne].
  - rewrite <- Heq. apply Z.mul_le_mono_nonneg_l; [lia |].
    apply round_half_even_mono; lia.
  - assert (Hlt : s1 < s2) by lia.
    (* below: at most 2^(s1+53); above: at least 2^(s2+52) *)
    assert (Hup : round_half_even n1 (d * 2 ^ s1) <= 2 ^ 53).
    { rewrite <- (round_half_even_exact (2 ^ 53) (d * 2 ^ s1) Hd1).
      apply round_half_even_mono; [assumption |].
      pose proof (shift_upper n1 d Hd ltac:(lia)) as Hu. fold s1 in Hu.
      rewrite Z.pow_add_r in Hu by lia. lia. }
    assert (Hlo : 2 ^ 52 <= round_half_even n2 (d * 2 ^ s2)).
    { rewrite <- (round_half_even_exact (2 ^ 52) (d * 2 ^ s2) Hd2) at 1.
      apply round_half_even_mono; [assumption |].
      pose proof (shift_lower n2 d Hd ltac:(lia) ltac:(fold s2; lia)) as Hl.
      fold s2 in Hl. rewrite Z.pow_add_r in Hl by lia. lia. }
    apply Z.le_trans with (2 ^ s1 * 2 ^ 53).
    { apply Z.mul_le_mono_nonneg_l; lia. }
    apply Z.le_trans with (2 ^ s2 * 2 ^ 52).
    { rewrite <- !Z.pow_add_r by lia. apply Z.pow_le_mono_r; lia. }
    apply Z.mul_le_mono_nonneg_l; lia.
Qed.

Lemma round_units_mono (n1 n2 d : Z) :
  0 < d -> n1 <= n2 -> round_units n1 d <= round_units n2 d.
Proof.
  intros Hd Hle.
  destruct (Z.le_gt_cases 0 n1) as [H1 | H1].
  - apply round_units_mono_nonneg; lia.
  - destruct (Z.le_gt_cases 0 n2) as [H2 | H2].
    + pose proof (round_units_nonneg n2 d Hd H2).
      pose proof (round_units_nonneg (- n1) d Hd ltac:(lia)) as H3.
      rewrite round_units_opp in H3 by assumption. lia.
    + pose proof (round_units_mono_nonneg (- n2) (- n1) d Hd ltac:(lia)) as H3.
      rewrite !round_units_opp in H3 by assumption. lia.
Qed.

End Binary64Facts.

Module Binary64Order.
Import Binary64 Binary64Facts.
Local Open Scope Z_scope.

Lemma fle_fin (a b : Z) : fle (Fin a) (Fin b) <-> a <= b.
Proof. unfold fle. simpl. apply Z.leb_le. Qed.

Lemma flt_fin (a b : Z) : flt (Fin a) (Fin b) <-> a < b.
Proof. unfold flt. simpl. apply Z.ltb_lt. Qed.

Lemma fle_trans (x y z : float) : fle x y -> fle y z -> fle x z.
Proof.
  unfold fle. destruct x, y, z; simpl; try congruence.
  rewrite !Z.leb_le. lia.
Qed.

Lemma fle_flt_trans (x y z : float) : fle x y -> flt y z -> flt x z.
Proof.
  unfold fle, flt. destruct x, y, z; simpl; try congruence.
  rewrite Z.leb_le, !Z.ltb_lt. lia.
Qed.

Lemma flt_fle (x y : float) : flt x y -> fle x y.
Proof.
  unfold fle, flt. destruct x, y; simpl; try congruence.
  rewrite Z.leb_le, Z.ltb_lt. lia.
Qed.

Lemma finish_mono (k1 k2 : Z) : k1 <= k2 -> fle (finish k1) (finish k2).
Proof.
  intros Hle. pose proof overflow_threshold_pos as Hpos.
  unfold fle, finish.
  destruct (Z.leb_spec overflow_threshold k1);
    destruct (Z.leb_spec overflow_threshold k2);
    destruct (Z.leb_spec k1 (- overflow_threshold));
    destruct (Z.leb_spec k2 (- overflow_threshold));
    simpl; try reflexivity; try lia.
Qed.

Lemma finish_not_nan (k : Z) : fis_nan (finish k) = false.
Proof.
  unfold finish.
  destruct (overflow_threshold <=? k); [reflexivity |].
  destruct (k <=? - overflow_threshold); reflexivity.
Qed.

Lemma fle_PInf (x : float) : fis_nan x = false -> fle x PInf.
Proof. destruct x; simpl; intros H; try discriminate; reflexivity. Qed.

Lemma fle_NInf (x : float) : fis_nan x = false -> fle NInf x.
Proof. destruct x; simpl; intros H; try discriminate; reflexivity. Qed.

(** *** The operations of [solar_intensity] preserve the order *)

Lemma fdiv_mono (x y : float) (c : Z) :
  0 < c -> fle x y -> fle (fdiv x (Fin c)) (fdiv y (Fin c)).
Proof.
  intros Hc Hle.
  assert (Hz : (c =? 0) = false) by (apply Z.eqb_neq; lia).
  assert (Hn : (c <? 0) = false) by (apply Z.ltb_ge; lia).
  assert (Hp : (0 <? c) = true) by (apply Z.ltb_lt; lia).
  destruct x as [a | | |], y as [b | | |]; try discriminate Hle;
    unfold fdiv, round_rat; rewrite ?Hz, ?Hn, ?Hp; simpl sign_inf;
    try reflexivity.
  - apply finish_mono, round_units_mono; [assumption |].
    apply fle_fin in Hle. pose proof unit_scale_pos. nia.
  - apply fle_PInf, finish_not_nan.
  - apply fle_NInf, finish_not_nan.
Qed.

Lemma fsub_anti (x y : float) (c : Z) :
  fle x y -> fle (fsub (Fin c) y) (fsub (Fin c) x).
Proof.
  intros Hle.
  destruct x as [a | | |], y as [b | | |]; try discriminate Hle;
    unfold fsub, fadd, fneg; try reflexivity.
  - apply finish_mono, round_units_mono; [lia |].
    apply fle_fin in Hle. lia.
  - apply fle_NInf, finish_not_nan.
  - apply fle_PInf, finish_not_nan.
Qed.

Lemma fmul_mono (x y : float) (c : Z) :
  0 < c -> fle x y -> fle (fmul (Fin c) x) (fmul (Fin c) y).
Proof.
  intros Hc Hle.
  assert (Hz : (c =? 0) = false) by (apply Z.eqb_neq; lia).
  assert (Hn : (c <? 0) = false) by (apply Z.ltb_ge; lia).
  assert (Hp : (0 <? c) = true) by (apply Z.ltb_lt; lia).
  destruct x as [a | | |], y as [b | | |]; try discriminate Hle;
    unfold fmul; rewrite ?Hz, ?Hn, ?Hp; simpl sign_inf; try reflexivity.
  - apply finish_mono, round_units_mono; [exact unit_scale_pos |].
    apply fle_fin in Hle. nia.
  - apply fle_PInf, finish_not_nan.
  - apply fle_NInf, finish_not_nan.
Qed.

Lemma fround_2_fin (k : Z) :
  fround (Fin k) 2
  = finish (round_units (round_half_even (k * 100) unit_scale * unit_scale) 100).
Proof. reflexivity. Qed.

Lemma fround_2_mono (x y : float) :
  fle x y -> fle (fround x 2) (fround y 2).
Proof.
  intros Hle. pose proof unit_scale_pos as HU.
  destruct x as [a | | |], y as [b | | |]; try discriminate Hle;
    rewrite ?fround_2_fin; try reflexivity.
  - apply finish_mono, round_units_mono; [lia |].
    apply fle_fin in Hle.
    apply Z.mul_le_mono_nonneg_r; [lia |].
    apply round_half_even_mono; lia.
  - apply fle_PInf, finish_not_nan.
  - apply fle_NInf, finish_not_nan.
Qed.

(** *** The integer constants of the source *)

Lemma of_Z_100 : of_Z 100 = Fin (100 * unit_scale).
Proof. vm_compute. reflexivity. Qed.

Lemma of_Z_1 : of_Z 1 = Fin (1 * unit_scale).
Proof. vm_compute. reflexivity. Qed.

Lemma of_Z_1367 : of_Z SOLAR_CONSTANT = Fin (1367 * unit_scale).
Proof. vm_compute. reflexivity. Qed.

Lemma solar_intensity_unfold (c : float) :
  solar_intensity c
  = fround (fmul (Fin (1367 * unit_scale))
                 (fsub (Fin (1 * unit_scale)) (fdiv c (Fin (100 * unit_scale)))))
           2.
Proof.
  unfold solar_intensity. rewrite of_Z_100, of_Z_1, of_Z_1367. reflexivity.
Qed.

Lemma solar_intensity_antitone (c1 c2 : float) :
  fle c1 c2 -> fle (solar_intensity c2) (solar_intensity c1).
Proof.
  intros Hle. pose proof unit_scale_pos as HU.
  rewrite !solar_intensity_unfold.
  apply fround_2_mono, fmul_mono; [lia |].
  apply fsub_anti, fdiv_mono; [lia | exact Hle].
Qed.

End Binary64Order.

(** ** The model against the processor

    The operations of [Binary64] agree with the doubles of the processor on
    sums, differences, products and quotients that round, overflow and
    underflow, and [fround] with the values that Python prints. *)

Module Conformance.
Import PrimFloat.
Import Binary64.

Example quotient_rounds :
  of_prim (37.3 / 100)%float = fdiv (fof_Q (373 # 10)) (fof_Q 100).
Proof. vm_compute. reflexivity. Qed.

Example intensity_product_rounds :
  of_prim (1367 * (1 - 37.3 / 100))%float
  = fmul (fof_Q 1367) (fsub (fof_Q 1) (fdiv (fof_Q (373 # 10)) (fof_Q 100))).
Proof. vm_compute. reflexivity. Qed.

Example sum_of_tenths : 
  of_prim (0.1 + 0.2)%float = fadd (fof_Q (1 # 10)) (fof_Q (2 # 10)).
Proof. vm_compute. reflexivity. Qed.

Example one_third : of_prim (1 / 3)%float = fdiv (fof_Q 1) (fof_Q 3).
Proof. vm_compute. reflexivity. Qed.

Example energy_quotient_rounds :
  of_prim (-857.11 * 12.34567 * 3600 / 1000000)%float
  = fdiv (fmul (fmul (fof_Q (-85711 # 100)) (fof_Q (1234567 # 100000)))
               (fof_Q 3600))
         (fof_Q 1000000).
Proof. vm_compute. reflexivity. Qed.

Example product_overflows :
  of_prim (1e200 * 1e200)%float = fmul (fof_Q (10 ^ 200)) (fof_Q (10 ^ 200))
  /\ fmul (fof_Q (10 ^ 200)) (fof_Q (10 ^ 200)) = PInf.
Proof. split; vm_compute; reflexivity. Qed.

Example sum_overflows :
  of_prim (1.7e308 + 1.7e308)%float
  = fadd (fof_Q (17 * 10 ^ 307)) (fof_Q (17 * 10 ^ 307)).
Proof. vm_compute. reflexivity. Qed.

Example quotient_underflows_to_zero :
  of_prim (1e-200 / 1e200)%float
  = fdiv (fof_Q (1 / 10 ^ 200)) (fof_Q (10 ^ 200)).
Proof. vm_compute. reflexivity. Qed.

Example quotient_is_subnormal :
  of_prim (1e-300 / 3e10)%float
  = fdiv (fof_Q (1 / 10 ^ 300)) (fof_Q (3 * 10 ^ 10)).
Proof. vm_compute. reflexivity. Qed.

Example half_of_smallest_double :
  of_prim (4.9e-324 / 2)%float = fdiv (fof_Q (49 / 10 ^ 325)) (fof_Q 2).
Proof. vm_compute. reflexivity. Qed.

Example product_below_normal_range :
  of_prim (2.2250738585072014e-308 * 0.7)%float
  = fmul (fof_Q (22250738585072014 / 10 ^ 324)) (fof_Q (7 # 10)).
Proof. vm_compute. reflexivity. Qed.

(** [round(2.675, 2)] is [2.67], [round(0.125, 2)] is [0.12] and
    [round(-0.000834, 2)] is zero. *)
Example round_2_675 : fround (fof_Q (2675 # 1000)) 2 = of_prim 2.67%float.
Proof. vm_compute. reflexivity. Qed.

Example round_0_125 : fround (fof_Q (125 # 1000)) 2 = of_prim 0.12%float.
Proof. vm_compute. reflexivity. Qed.

Example round_small_negative : fround (fof_Q (-834 # 1000000)) 2 = Fin 0.
Proof. vm_compute. reflexivity. Qed.

End Conformance.

(** ** The energy model *)

Section EnergyModel.
Import Binary64 Binary64Facts Binary64Order.

(** C7 (amended). [solar_intensity 0] is 1367.0, [solar_intensity 100] is
    0.0, and over the cloud covers from 0 to 100 the intensity never
    increases when the cloud cover does. *)
Theorem solar_intensity_endpoints_and_order :
  solar_intensity (of_Z 0 : float) = of_Z 1367
  /\ solar_intensity (of_Z 100 : float) = of_Z 0
  /\ (forall c1 c2 : float,
        fle (of_Z 0) c1 -> fle c1 c2 -> fle c2 (of_Z 100) ->
        fle (solar_intensity c2) (solar_intensity c1)).
Proof.
  split; [vm_compute; reflexivity |].
  split; [vm_compute; reflexivity |].
  intros c1 c2 _ Hle _. apply solar_intensity_antitone, Hle.
Qed.

(** C10 (amended). [solar_intensity] is the rounded product for every cloud
    cover, with no clamping: above 100 the intensity is never positive, from
    100.001 on it is strictly negative, at 200 it is -1367.0, and
    [calculate_energy] then returns a negative energy. *)
Theorem solar_intensity_above_full_cover :
  (forall c : float,
      solar_intensity c
      = fround (fmul (of_Z 1367) (fsub (of_Z 1) (fdiv c (of_Z 100)))) 2)
  /\ (forall c : float,
        flt (of_Z 100) c -> fle (solar_intensity c) (of_Z 0))
  /\ (forall c : float,
        fle Samples.cloud_100_001 c -> flt (solar_intensity c) (of_Z 0))
  /\ solar_intensity (of_Z 200 : float) = of_Z (-1367)
  /\ flt (calculate_energy (solar_intensity (of_Z 200)) (of_Z 12)) (of_Z 0).
Proof.
  split; [reflexivity |].
  split; [| split; [| split]].
  - intros c Hc.
    apply fle_trans with (solar_intensity (of_Z 100)).
    + apply solar_intensity_antitone, flt_fle, Hc.
    + vm_compute. reflexivity.
  - intros c Hc.
    apply fle_flt_trans with (solar_intensity Samples.cloud_100_001).
    + apply solar_intensity_antitone, Hc.
    + vm_compute. reflexivity.
  - vm_compute. reflexivity.
  - vm_compute. reflexivity.
Qed.

End EnergyModel.

(** Cloud covers 50 and 50 + 2^-12. *)
Lemma solar_intensity_endpoints_and_order_witness :
  Binary64.fle (solar_intensity Samples.cloud_50_plus)
               (solar_intensity Samples.cloud_50).
Proof.
  apply (proj2 (proj2 solar_intensity_endpoints_and_order)
           Samples.cloud_50 Samples.cloud_50_plus);
    vm_compute; reflexivity.
Defined.

(** C7, as stated, fails: 50 and the double 2^-12 above it are both between
    0 and 100 and get the same intensity, 683.5. *)
Lemma solar_intensity_not_strictly_decreasing :
  Binary64.fle (of_Z 0) Samples.cloud_50
  /\ Binary64.flt Samples.cloud_50 Samples.cloud_50_plus
  /\ Binary64.fle Samples.cloud_50_plus (of_Z 100)
  /\ solar_intensity Samples.cloud_50_plus = solar_intensity Samples.cloud_50
  /\ ~ Binary64.flt (solar_intensity Samples.cloud_50_plus)
                    (solar_intensity Samples.cloud_50).
Proof.
  repeat split; try (vm_compute; reflexivity).
  vm_compute. discriminate.
Qed.

(** The double nearest to 100.5. *)
Lemma solar_intensity_above_full_cover_witness :
  Binary64.flt (solar_intensity (of_Q (201 # 2))) (of_Z 0).
Proof.
  apply (proj1 (proj2 (proj2 solar_intensity_above_full_cover))).
  vm_compute. reflexivity.
Defined.

(** C10, as stated, fails: the double 2^-14 above 100 is a cloud cover
    greater than 100 whose intensity is zero, not a negative number. *)
Lemma solar_intensity_zero_just_above_100 :
  Binary64.flt (of_Z 100) Samples.cloud_100_plus
  /\ solar_intensity Samples.cloud_100_plus = of_Z 0
  /\ ~ Binary64.flt (solar_intensity Samples.cloud_100_plus) (of_Z 0).
Proof.
  repeat split; try (vm_compute; reflexivity).
  vm_compute. discriminate.
Qed.

(** ** Daylight hours over the reals *)

Section Daylight.
Import Ideal.
Local Open Scope R_scope.











End Daylight.



(** ** The insertion sort meets the contract of [sort_values] *)

Section InsertionSort.
Context {F : Type} {FA : Arith F}.

Hypothesis desc_total :
  forall a b : result F, desc_ok a b = true \/ desc_ok b a = true.
Hypothesis desc_trans :
  forall a b c : result F,
    desc_ok a b = true -> desc_ok b c = true -> desc_ok a c = true.

Lemma insert_row_perm (x : result F) (l : list (result F)) :
  Permutation (x :: l) (insert_row x l).
Proof.
  induction l as [| y l IH]; simpl; [apply Permutation_refl |].
  destruct (desc_ok x y); [apply Permutation_refl |].
  eapply Permutation_trans; [apply perm_swap |].
  apply perm_skip, IH.
Qed.

Lemma insert_row_sorted (x : result F) (l : list (result F)) :
  StronglySorted energy_desc l -> StronglySorted energy_desc (insert_row x l).
Proof.
  induction l as [| y l IH]; intros Hs; simpl.
  - constructor; constructor.
  - destruct (desc_ok x y) eqn:Hxy.
    + constructor; [exact Hs |].
      constructor; [exact Hxy |].
      apply StronglySorted_inv in Hs. destruct Hs as [_ Hall].
      eapply Forall_impl; [| exact Hall].
      intros z Hz. exact (desc_trans x y z Hxy Hz).
    + apply StronglySorted_inv in Hs. destruct Hs as [Hs Hall].
      constructor; [apply IH, Hs |].
      assert (Hyx : energy_desc y x).
      { destruct (desc_total x y) as [H | H]; [congruence | exact H]. }
      eapply Permutation_Forall; [apply insert_row_perm |].
      constructor; assumption.
Qed.

Lemma insertion_sort_from (l acc : list (result F)) :
  StronglySorted energy_desc acc ->
  Permutation (l ++ acc) (fold_left (fun a x => insert_row x a) l acc)
  /\ StronglySorted energy_desc (fold_left (fun a x => insert_row x a) l acc).
Proof.
  revert acc. induction l as [| x l IH]; intros acc Hacc; simpl.
  - split; [apply Permutation_refl | exact Hacc].
  - destruct (IH (insert_row x acc) (insert_row_sorted x acc Hacc)) as [Hp Hs].
    split; [| exact Hs].
    eapply Permutation_trans; [| exact Hp].
    eapply Permutation_trans; [apply Permutation_middle |].
    apply Permutation_app_head, insert_row_perm.
Qed.

Lemma insertion_sort_contract : sort_contract (F := F) insertion_sort_values.
Proof.
  intros l. unfold insertion_sort_values.
  destruct (insertion_sort_from l [] (SSorted_nil _)) as [Hp Hs].
  rewrite app_nil_r in Hp. split; assumption.
Qed.

End InsertionSort.

Lemma Rleb_true (x y : R) : Ideal.Rleb x y = true <-> (x <= y)%R.
Proof.
  unfold Ideal.Rleb. destruct (Rle_dec x y); split; intros; auto; discriminate.
Qed.

Lemma real_desc_ok (a b : result R) :
  desc_ok a b = true <-> (energy b <= energy a)%R.
Proof. unfold desc_ok. simpl. apply Rleb_true. Qed.

Lemma real_insertion_sort_contract :
  sort_contract (F := R) insertion_sort_values.
Proof.
  apply insertion_sort_contract.
  - intros a b. rewrite !real_desc_ok.
    destruct (Rle_dec (energy b) (energy a)); [left; assumption |].
    right. apply Rlt_le, Rnot_le_lt. assumption.
  - intros a b c. rewrite !real_desc_ok. intros H1 H2.
    eapply Rle_trans; eassumption.
Qed.

(** ** The ranking pass *)

Section RankingPass.
Context {F : Type} {FA : Arith F} {FL : Libm F} {FR : Round F}.
Variable open_meteo : F -> F -> except (response F).
Variable float_of_str : string -> option F.
Variable today : string.
Variable day_number : Z.
Variable now : string.
Variable sort_values : list (result F) -> list (result F).

Local Abbreviation pass :=
  (process_and_save_top_regions open_meteo float_of_str
     today day_number now sort_values).
Local Abbreviation rows_of := (for_each open_meteo today now).
Local Abbreviation catalog fs := (read_regions float_of_str (REGION_FILE fs)).
Local Abbreviation decl := (declination_angle day_number).

Lemma get_weather_data_returns (lat lon : F) :
  exists w, get_weather_data open_meteo lat lon = Ok w.
Proof.
  unfold get_weather_data.
  destruct (get_weather_data_cached_returns open_meteo
              (py_round lat 4) (py_round lon 4)) as [w Hw].
  exists w. exact Hw.
Qed.

Lemma region_result_returns (d : F) (r : region_entry F) :
  exists row, region_result open_meteo today now d r = Ok row
              /\ res_region row = region r.
Proof.
  unfold region_result.
  destruct (get_weather_data_returns (latitude r) (longitude r)) as [w Hw].
  rewrite Hw. simpl. eexists. split; reflexivity.
Qed.

Lemma for_each_returns (d : F) (regions : list (region_entry F)) :
  exists rows, rows_of d regions = Ok rows
               /\ map (@res_region F) rows = map (@region F) regions.
Proof.
  induction regions as [| r regions IH]; simpl.
  - exists []. split; reflexivity.
  - destruct (region_result_returns d r) as [row [Hrow Hname]].
    destruct IH as [rows [Hrows Hnames]].
    rewrite Hrow. simpl. rewrite Hrows. simpl.
    exists (row :: rows). split; [reflexivity |].
    simpl. rewrite Hname, Hnames. reflexivity.
Qed.

Lemma pass_of_rows (fs : files F) (rows : list (result F)) :
  rows_of decl (catalog fs) = Ok rows ->
  pass fs = match rows with
            | [] => Ok ([], fs)
            | _ :: _ =>
                Ok (firstn 10 (sort_values rows),
                    to_csv (firstn 10 (sort_values rows)) fs)
            end.
Proof.
  unfold process_and_save_top_regions.
  intros ->. destruct rows; reflexivity.
Qed.

Lemma rows_length (d : F) (regions : list (region_entry F))
    (rows : list (result F)) :
  rows_of d regions = Ok rows -> List.length rows = List.length regions.
Proof.
  intros H. destruct (for_each_returns d regions) as [rows' [H' Hn]].
  rewrite H in H'. injection H' as <-.
  rewrite <- (length_map (@res_region F)), Hn. apply length_map.
Qed.



(** C4 (amended). The pass raises nothing.  Over an empty catalog it returns
    the empty snapshot and leaves the files as they were, the snapshot file
    included: [to_csv] is not reached.  Over a catalog with at least one
    region the snapshot file holds exactly the returned snapshot afterwards,
    whatever it held before. *)
Theorem snapshot_replaced_unless_empty (fs : files F) :
  (exists df fs', pass fs = Ok (df, fs'))
  /\ (catalog fs = [] -> pass fs = Ok ([], fs))
  /\ (catalog fs <> [] ->
      exists df, pass fs = Ok (df, to_csv df fs)
                 /\ TOP_REGIONS_FILE (to_csv df fs) = Some df
                 /\ forall previous,
                      pass {| REGION_FILE := REGION_FILE fs;
                              TOP_REGIONS_FILE := previous |}
                      = Ok (df, to_csv df fs)).
Proof.
  destruct (for_each_returns decl (catalog fs)) as [rows [Hrows _]].
  pose proof (rows_length decl (catalog fs) rows Hrows) as Hlen.
  pose proof (pass_of_rows fs rows Hrows) as Hpass.
  split; [| split].
  - rewrite Hpass. destruct rows; eauto.
  - intros Hempty. rewrite Hempty in Hlen. destruct rows; [| discriminate].
    exact Hpass.
  - intros Hne.
    destruct rows as [| row rows']; [destruct (catalog fs); [contradiction | discriminate] |].
    set (rows := row :: rows') in *.
    exists (firstn 10 (sort_values rows)).
    split; [exact Hpass | split; [reflexivity |]].
    intros previous.
    rewrite (pass_of_rows _ rows); [reflexivity |]. exact Hrows.
Qed.

End RankingPass.

(** ** A pass with the network down *)

Lemma twin_catalog_regions :
  read_regions Decimal.real_of_str (REGION_FILE Offline.twin_files)
  = [ {| region := Some "A"%string;
         latitude := Q2R (10 # 1); longitude := Q2R (20 # 1) |};
      {| region := Some "B"%string;
         latitude := Q2R (10 # 1); longitude := Q2R (20 # 1) |} ].
Proof. reflexivity. Qed.






(** The two-entry catalog: the snapshot file holds the returned snapshot. *)
Lemma snapshot_replaced_unless_empty_witness :
  exists df,
    Offline.run_pass Offline.twin_files = Ok (df, to_csv df Offline.twin_files)
    /\ TOP_REGIONS_FILE (to_csv df Offline.twin_files) = Some df.
Proof.
  destruct (proj2 (proj2 (snapshot_replaced_unless_empty Offline.offline
              Decimal.real_of_str "2026-03-21" 80 "12:00:00"
              insertion_sort_values Offline.twin_files)))
    as (df & Hpass & Hfile & _).
  - rewrite twin_catalog_regions. discriminate.
  - exists df. split; [exact Hpass | exact Hfile].
Defined.

(** C4, as stated, fails in its last part.  Over the catalog without
    records the pass returns the empty snapshot, and the snapshot file still
    holds the row of the earlier pass: it has not been replaced by the empty
    snapshot. *)
Lemma stale_snapshot_survives_empty_catalog :
  read_regions Decimal.real_of_str (REGION_FILE Offline.stale_files) = []
  /\ Offline.run_pass Offline.stale_files = Ok ([], Offline.stale_files)
  /\ TOP_REGIONS_FILE Offline.stale_files = Some [Offline.old_row]
  /\ TOP_REGIONS_FILE Offline.stale_files <> Some [].
Proof.
  split; [reflexivity |].
  split; [reflexivity |].
  split; [reflexivity | discriminate].
Qed.

(* ================================================================= *)
(** * Further properties of the code *)

(** ** The route *)

Section RouteFacts.
Context {F : Type} {FA : Arith F} {FL : Libm F} {FR : Round F}.
Variable open_meteo : F -> F -> except (response F).
Variable nominatim : F -> F -> except (response F).
Variable float_of_str : string -> option F.
Variable strip : string -> string.
Variable query_clock : clock.
Variable pass_clock : clock.
Variable sort_values : list (result F) -> list (result F).
Variable graphs_type : Type.
Variable generate_graphs : list (result F) -> graphs_type.
Local Open Scope string_scope.

Local Abbreviation route :=
  (index open_meteo nominatim float_of_str strip query_clock pass_clock
     sort_values generate_graphs).
Local Abbreviation ranking fs :=
  (process_and_save_top_regions open_meteo float_of_str
     (clock_today pass_clock) (clock_day pass_clock) (clock_now pass_clock)
     sort_values fs).
Local Abbreviation lat_field req :=
  (strip (form_get_or_empty "latitude" (form req))).
Local Abbreviation lon_field req :=
  (strip (form_get_or_empty "longitude" (form req))).

Lemma parse_coordinates_returns (lat_str lon_str : string) :
  exists c, parse_coordinates float_of_str lat_str lon_str = Ok c.
Proof.
  unfold parse_coordinates, float_or_none.
  destruct (is_empty lat_str); simpl.
  - destruct (is_empty lon_str); simpl; [eauto |].
    destruct (float_of_str lon_str); simpl; eauto.
  - destruct (float_of_str lat_str); simpl; [| eauto].
    destruct (is_empty lon_str); simpl; [eauto |].
    destruct (float_of_str lon_str); simpl; eauto.
Qed.

Lemma get_region_name_from_coords_returns (lat lon : F) :
  exists name, get_region_name_from_coords nominatim lat lon = Ok name.
Proof.
  unfold get_region_name_from_coords, get_region_name_from_coords_cached.
  eapply try_except_Exception_ok. reflexivity.
Qed.

Lemma query_region_returns (fields : list (string * string)) (lat lon : F) :
  exists name, query_region nominatim strip fields lat lon = Ok name.
Proof.
  unfold query_region.
  destruct (form_get "region" fields) as [r |];
    [destruct (is_empty r || is_empty (strip r)) |];
    eauto using get_region_name_from_coords_returns.
Qed.

Lemma ranking_returns (fs : files F) :
  exists df fs',
    ranking fs = Ok (df, fs') /\ REGION_FILE fs' = REGION_FILE fs.
Proof.
  destruct (for_each_returns open_meteo (clock_today pass_clock)
              (clock_now pass_clock)
              (declination_angle (clock_day pass_clock))
              (read_regions float_of_str (REGION_FILE fs)))
    as [rows [Hrows _]].
  rewrite (pass_of_rows open_meteo float_of_str (clock_today pass_clock)
             (clock_day pass_clock) (clock_now pass_clock) sort_values
             fs rows Hrows).
  destruct rows as [| row rows'].
  - exists [], fs. auto.
  - eexists _, _. split; reflexivity.
Qed.

Lemma ranking_of_empty_catalog (fs : files F) :
  read_regions float_of_str (REGION_FILE fs) = [] ->
  ranking fs = Ok ([], fs).
Proof.
  intros Hempty. unfold process_and_save_top_regions. rewrite Hempty.
  reflexivity.
Qed.

(** The row that a query at [(latitude, longitude)] is given. *)
Local Abbreviation row_of region w latitude :=
  {| q_region := region;
     q_date := clock_today query_clock;
     q_time := clock_now query_clock;
     q_temp := fst w;
     q_cloud := py_round (snd w) 2;
     q_intensity := solar_intensity (snd w);
     q_daylight :=
       py_round (daylight_hours latitude
                   (declination_angle (clock_day query_clock))) 2;
     q_energy :=
       calculate_energy (solar_intensity (snd w))
         (daylight_hours latitude
            (declination_angle (clock_day query_clock))) |}.

Lemma computes_inv (req : request) :
  computes float_of_str strip req = true ->
  method req = "POST"
  /\ exists latitude longitude,
       parse_coordinates float_of_str (lat_field req) (lon_field req)
       = Ok (Some latitude, Some longitude).
Proof.
  unfold computes. intros H. apply andb_prop in H. destruct H as [Hm Hc].
  split; [apply String.eqb_eq, Hm |].
  destruct (parse_coordinates float_of_str (lat_field req) (lon_field req))
    as [[[latitude |] [longitude |]] | e]; try discriminate.
  eauto.
Qed.

Lemma index_of_query (req : request) (st : site F) (latitude longitude : F) :
  method req = "POST" ->
  parse_coordinates float_of_str (lat_field req) (lon_field req)
  = Ok (Some latitude, Some longitude) ->
  exists region w df fs',
    query_region nominatim strip (form req) latitude longitude = Ok region
    /\ get_weather_data open_meteo latitude longitude = Ok w
    /\ ranking (site_files st) = Ok (df, fs')
    /\ REGION_FILE fs' = REGION_FILE (site_files st)
    /\ route req st
       = Ok ({| page_result := Some (QueryRow (row_of region w latitude));
                page_top_regions := Some df;
                page_graphs := match df with
                               | [] => None
                               | _ :: _ => Some (generate_graphs df)
                               end |},
             {| site_files := fs';
                USER_QUERIES_FILE :=
                  append_query (row_of region w latitude)
                    (USER_QUERIES_FILE st) |}).
Proof.
  intros Hm Hc.
  destruct (query_region_returns (form req) latitude longitude) as [region Hr].
  destruct (get_weather_data_returns open_meteo latitude longitude) as [w Hw].
  destruct (ranking_returns (site_files st)) as (df & fs' & Hp & Hfile).
  exists region, w, df, fs'. repeat split; try assumption.
  unfold index. rewrite Hm. simpl String.eqb. cbv iota.
  rewrite Hc. simpl. rewrite Hr. simpl. rewrite Hw. simpl.
  rewrite Hp. simpl. reflexivity.
Qed.

Lemma index_of_rejected (req : request) (st : site F) :
  method req = "POST" ->
  computes float_of_str strip req = false ->
  route req st
  = Ok ({| page_result := Some (QueryError error_message);
           page_top_regions := None;
           page_graphs := None |}, st).
Proof.
  intros Hm Hc. unfold computes in Hc. rewrite Hm in Hc. simpl in Hc.
  unfold index. rewrite Hm. simpl String.eqb. cbv iota.
  destruct (parse_coordinates_returns (lat_field req) (lon_field req))
    as [c Hparse].
  rewrite Hparse in *. simpl.
  destruct c as [[latitude |] [longitude |]]; try discriminate; reflexivity.
Qed.

Lemma index_of_other_method (req : request) (st : site F) :
  method req <> "POST" ->
  route req st
  = Ok ({| page_result := None; page_top_regions := None;
           page_graphs := None |}, st).
Proof.
  intros Hm. unfold index.
  destruct (String.eqb (method req) "POST") eqn:E; [| reflexivity].
  apply String.eqb_eq in E. contradiction.
Qed.


(** X2. A request that is not a POST, or whose latitude or longitude is
    missing, blank or not numeric, changes no file, and its page has neither
    top regions nor graphs; for a POST the page carries the error message. *)
Theorem rejected_request_changes_nothing (req : request) (st : site F) :
  computes float_of_str strip req = false ->
  exists pg,
    route req st = Ok (pg, st)
    /\ page_top_regions pg = None
    /\ page_graphs pg = None
    /\ (method req = "POST" ->
        page_result pg = Some (QueryError error_message))
    /\ (method req <> "POST" -> page_result pg = None).
Proof.
  intros Hc. destruct (String.eqb (method req) "POST") eqn:Hm.
  - apply String.eqb_eq in Hm.
    rewrite (index_of_rejected req st Hm Hc).
    eexists. repeat split; try reflexivity. intros H. contradiction.
  - apply String.eqb_neq in Hm.
    rewrite (index_of_other_method req st Hm).
    eexists. repeat split; try reflexivity. intros H. contradiction.
Qed.

(** X3. A POST with two numeric coordinates appends exactly one row to the
    query log, after every line that was there; the header is written in
    front of it exactly when the log did not exist.  The catalog file is
    left as it was. *)
Theorem query_is_appended_to_log (req : request) (st : site F) :
  computes float_of_str strip req = true ->
  exists pg st' row,
    route req st = Ok (pg, st')
    /\ page_result pg = Some (QueryRow row)
    /\ (USER_QUERIES_FILE st = None ->
        USER_QUERIES_FILE st'
        = Some [LogHeader query_fieldnames; LogRow row])
    /\ (forall lines, USER_QUERIES_FILE st = Some lines ->
        USER_QUERIES_FILE st' = Some (lines ++ [LogRow row])%list)
    /\ REGION_FILE (site_files st') = REGION_FILE (site_files st).
Proof.
  intros Hc.
  destruct (computes_inv req Hc) as (Hm & latitude & longitude & Hparse).
  destruct (index_of_query req st latitude longitude Hm Hparse)
    as (region & w & df & fs' & _ & _ & _ & Hfile & Hroute).
  rewrite Hroute. eexists _, _, _.
  split; [reflexivity |]. split; [reflexivity |]. simpl.
  split; [intros -> ; reflexivity |].
  split; [intros lines -> ; reflexivity | exact Hfile].
Qed.

(** X4. The name typed in the form is used as typed, and the page and the
    files are then the same whatever the geocoding service would answer; a
    name that is missing, empty or blank is replaced by the name that
    [get_region_name_from_coords] resolves for the coordinates. *)
Theorem region_of_query (req : request) (st : site F) :
  computes float_of_str strip req = true ->
  exists pg st' row latitude longitude,
    parse_coordinates float_of_str (lat_field req) (lon_field req)
    = Ok (Some latitude, Some longitude)
    /\ route req st = Ok (pg, st')
    /\ page_result pg = Some (QueryRow row)
    /\ (forall r, form_get "region" (form req) = Some r ->
          is_empty r = false -> is_empty (strip r) = false ->
          q_region row = JStr r
          /\ forall other : F -> F -> except (response F),
               index open_meteo other float_of_str strip query_clock
                 pass_clock sort_values generate_graphs req st
               = Ok (pg, st'))
    /\ (form_get "region" (form req) = None
        \/ (exists r, form_get "region" (form req) = Some r
                      /\ (is_empty r = true \/ is_empty (strip r) = true)) ->
        get_region_name_from_coords nominatim latitude longitude
        = Ok (q_region row)).
Proof.
  intros Hc.
  destruct (computes_inv req Hc) as (Hm & latitude & longitude & Hparse).
  destruct (index_of_query req st latitude longitude Hm Hparse)
    as (region & w & df & fs' & Hregion & Hw & Hp & Hfile & Hroute).
  rewrite Hroute. eexists _, _, _, latitude, longitude.
  split; [exact Hparse |]. split; [reflexivity |]. split; [reflexivity |].
  simpl. split.
  - intros r Hr He Hs.
    assert (Hkept : region = JStr r).
    { unfold query_region in Hregion. rewrite Hr, He, Hs in Hregion.
      simpl in Hregion. congruence. }
    split; [exact Hkept |].
    intros other. unfold index. rewrite Hm. simpl String.eqb. cbv iota.
    rewrite Hparse. simpl.
    unfold query_region. rewrite Hr, He, Hs. simpl.
    rewrite Hw. simpl. rewrite Hp. simpl. rewrite Hkept. reflexivity.
  - intros Hblank. unfold query_region in Hregion.
    destruct Hblank as [Hnone | (r & Hr & Hblank)].
    + rewrite Hnone in Hregion. exact Hregion.
    + rewrite Hr in Hregion.
      assert (Hb : is_empty r || is_empty (strip r) = true).
      { destruct Hblank as [-> | ->]; [reflexivity | apply orb_true_r]. }
      rewrite Hb in Hregion. exact Hregion.
Qed.

(** X5. The graphs are generated exactly when the frame of the top regions
    has a row, and from that frame; over an empty catalog a query is still
    answered, with an empty frame, no graphs, and the files of the ranking
    pass left as they were. *)
Theorem graphs_need_a_ranked_region (req : request) (st : site F) :
  computes float_of_str strip req = true ->
  exists pg st' df,
    route req st = Ok (pg, st')
    /\ page_top_regions pg = Some df
    /\ (df = [] -> page_graphs pg = None)
    /\ (df <> [] -> page_graphs pg = Some (generate_graphs df))
    /\ (read_regions float_of_str (REGION_FILE (site_files st)) = [] ->
        df = [] /\ site_files st' = site_files st).
Proof.
  intros Hc.
  destruct (computes_inv req Hc) as (Hm & latitude & longitude & Hparse).
  destruct (index_of_query req st latitude longitude Hm Hparse)
    as (region & w & df & fs' & _ & _ & Hp & _ & Hroute).
  rewrite Hroute. eexists _, _, df.
  split; [reflexivity |]. split; [reflexivity |]. simpl.
  split; [intros -> ; reflexivity |].
  split; [destruct df; [contradiction | reflexivity] |].
  intros Hempty.
  rewrite (ranking_of_empty_catalog (site_files st) Hempty) in Hp.
  injection Hp as <- <-. split; reflexivity.
Qed.

Lemma header_once_append (row : query_row F) (log : option (list (log_line F))) :
  header_once log ->
  header_once (append_query row log)
  /\ logged_rows (append_query row log) = S (logged_rows log).
Proof.
  destruct log as [[| first rows] |]; cbn [header_once append_query logged_rows].
  - contradiction.
  - intros [Hfirst Hrows]. split.
    + split; [exact Hfirst |]. rewrite forallb_app, Hrows. reflexivity.
    + change ((first :: rows) ++ [LogRow row])%list
        with (first :: (rows ++ [LogRow row]))%list.
      cbn [filter]. rewrite filter_app.
      destruct (is_row first); cbn [List.length]; rewrite length_app;
        simpl; lia.
  - intros _. split; [split; reflexivity | reflexivity].
Qed.


Lemma index_log (req : request) (st : site F) :
  header_once (USER_QUERIES_FILE st) ->
  exists pg st',
    route req st = Ok (pg, st')
    /\ header_once (USER_QUERIES_FILE st')
    /\ logged_rows (USER_QUERIES_FILE st')
       = (logged_rows (USER_QUERIES_FILE st)
          + if computes float_of_str strip req then 1 else 0)%nat.
Proof.
  intros Hlog. destruct (computes float_of_str strip req) eqn:Hc.
  - destruct (computes_inv req Hc) as (Hm & latitude & longitude & Hparse).
    destruct (index_of_query req st latitude longitude Hm Hparse)
      as (region & w & df & fs' & _ & _ & _ & _ & Hroute).
    rewrite Hroute. eexists _, _. split; [reflexivity |]. simpl.
    destruct (header_once_append (row_of region w latitude)
                (USER_QUERIES_FILE st) Hlog) as [H1 H2].
    split; [exact H1 | rewrite H2; lia].
  - destruct (String.eqb (method req) "POST") eqn:Hm.
    + apply String.eqb_eq in Hm. rewrite (index_of_rejected req st Hm Hc).
      eexists _, st. split; [reflexivity |]. split; [exact Hlog | lia].
    + apply String.eqb_neq in Hm. rewrite (index_of_other_method req st Hm).
      eexists _, st. split; [reflexivity |]. split; [exact Hlog | lia].
Qed.

(** X6. Over any run of requests the query log keeps its shape: started from
    a missing log, or from a log that is a header followed by rows, it is
    again a header followed by rows, the header being there once and first;
    and it has grown by one row for each request that passes the
    validation. *)
Theorem log_has_one_header (requests : list request) (st : site F) :
  header_once (USER_QUERIES_FILE st) ->
  exists st',
    serve open_meteo nominatim float_of_str strip query_clock pass_clock
      sort_values generate_graphs requests st = Ok st'
    /\ header_once (USER_QUERIES_FILE st')
    /\ logged_rows (USER_QUERIES_FILE st')
       = (logged_rows (USER_QUERIES_FILE st)
          + List.length (filter (computes float_of_str strip) requests))%nat.
Proof.
  revert st. induction requests as [| req requests IH]; intros st Hlog.
  - exists st. simpl. split; [reflexivity | split; [exact Hlog | lia]].
  - destruct (index_log req st Hlog) as (pg & st1 & Hroute & Hlog1 & Hrows1).
    destruct (IH st1 Hlog1) as (st' & Hserve & Hlog' & Hrows').
    exists st'. simpl. rewrite Hroute. simpl. rewrite Hserve.
    split; [reflexivity | split; [exact Hlog' |]].
    rewrite Hrows', Hrows1.
    destruct (computes float_of_str strip req); simpl; lia.
Qed.

Lemma ranking_of_catalog (fs : files F) :
  read_regions float_of_str (REGION_FILE fs) <> [] ->
  exists df, ranking fs = Ok (df, to_csv df fs).
Proof.
  intros Hne.
  destruct (for_each_returns open_meteo (clock_today pass_clock)
              (clock_now pass_clock)
              (declination_angle (clock_day pass_clock))
              (read_regions float_of_str (REGION_FILE fs)))
    as [rows [Hrows _]].
  pose proof (rows_length open_meteo (clock_today pass_clock)
                (clock_now pass_clock) _ _ rows Hrows) as Hlen.
  rewrite (pass_of_rows open_meteo float_of_str (clock_today pass_clock)
             (clock_day pass_clock) (clock_now pass_clock) sort_values
             fs rows Hrows).
  destruct rows as [| row rows'].
  - destruct (read_regions float_of_str (REGION_FILE fs));
      [contradiction | discriminate].
  - eexists. reflexivity.
Qed.

(** X7. After a query over a catalog with at least one region, the frame
    shown on the page is the frame that the snapshot file holds. *)
Theorem page_shows_saved_snapshot (req : request) (st : site F) :
  computes float_of_str strip req = true ->
  read_regions float_of_str (REGION_FILE (site_files st)) <> [] ->
  exists pg st' df,
    route req st = Ok (pg, st')
    /\ page_top_regions pg = Some df
    /\ TOP_REGIONS_FILE (site_files st') = Some df.
Proof.
  intros Hc Hne.
  destruct (computes_inv req Hc) as (Hm & latitude & longitude & Hparse).
  destruct (index_of_query req st latitude longitude Hm Hparse)
    as (region & w & df & fs' & _ & _ & Hp & _ & Hroute).
  destruct (ranking_of_catalog (site_files st) Hne) as [df' Hp'].
  rewrite Hp' in Hp. injection Hp as <- <-.
  rewrite Hroute. eexists _, _, df'.
  split; [reflexivity |]. split; reflexivity.
Qed.

(** X8. A query at the coordinates of a catalog entry, on the day of the
    ranking pass, is given the same temperature, cloud cover, intensity,
    daylight and energy as the row that the pass computes for that entry:
    the two copies of the computation agree. *)
Theorem query_agrees_with_ranking (req : request) (st : site F)
    (r : region_entry F) :
  method req = "POST" ->
  parse_coordinates float_of_str (lat_field req) (lon_field req)
  = Ok (Some (latitude r), Some (longitude r)) ->
  clock_day pass_clock = clock_day query_clock ->
  exists pg st' row ranked,
    route req st = Ok (pg, st')
    /\ page_result pg = Some (QueryRow row)
    /\ region_result open_meteo (clock_today pass_clock)
         (clock_now pass_clock)
         (declination_angle (clock_day pass_clock)) r = Ok ranked
    /\ temp ranked = q_temp row
    /\ cloud ranked = q_cloud row
    /\ intensity ranked = q_intensity row
    /\ daylight ranked = q_daylight row
    /\ energy ranked = q_energy row.
Proof.
  intros Hm Hparse Hday.
  destruct (index_of_query req st (latitude r) (longitude r) Hm Hparse)
    as (region & w & df & fs' & _ & Hw & _ & _ & Hroute).
  rewrite Hroute, Hday. eexists _, _, _, _.
  split; [reflexivity |]. split; [reflexivity |].
  unfold region_result. rewrite Hw. cbn [bind].
  split; [reflexivity |]. cbn. repeat split; reflexivity.
Qed.

End RouteFacts.

(** A query without a latitude, on the first day. *)
Lemma rejected_request_changes_nothing_witness :
  exists pg,
    Visits.route Visits.incomplete_query Visits.first_day
    = Ok (pg, Visits.first_day)
    /\ page_result pg = Some (QueryError error_message).
Proof.
  destruct (rejected_request_changes_nothing
              Offline.offline Offline.offline Decimal.real_of_str Visits.strip
              Visits.noon Visits.noon insertion_sort_values
              (list string) Visits.graph_titles
              Visits.incomplete_query Visits.first_day eq_refl)
    as (pg & Hroute & _ & _ & Herror & _).
  exists pg. split; [exact Hroute | apply Herror; reflexivity].
Defined.

(** The first query of the site: the log is created with its header. *)
Lemma query_is_appended_to_log_witness :
  exists pg st' row,
    Visits.route Visits.named_query Visits.first_day = Ok (pg, st')
    /\ USER_QUERIES_FILE st' = Some [LogHeader query_fieldnames; LogRow row].
Proof.
  destruct (query_is_appended_to_log
              Offline.offline Offline.offline Decimal.real_of_str Visits.strip
              Visits.noon Visits.noon insertion_sort_values
              (list string) Visits.graph_titles
              Visits.named_query Visits.first_day eq_refl)
    as (pg & st' & row & Hroute & _ & Hnew & _).
  exists pg, st', row. split; [exact Hroute | apply Hnew; reflexivity].
Defined.

(** A query that names its place. *)
Lemma region_of_query_witness :
  exists pg st' row,
    Visits.route Visits.named_query Visits.first_day = Ok (pg, st')
    /\ page_result pg = Some (QueryRow row)
    /\ q_region row = JStr "Pune".
Proof.
  destruct (region_of_query
              Offline.offline Offline.offline Decimal.real_of_str Visits.strip
              Visits.noon Visits.noon insertion_sort_values
              (list string) Visits.graph_titles
              Visits.named_query Visits.first_day eq_refl)
    as (pg & st' & row & latitude & longitude & _ & Hroute & Hrow & Htyped & _).
  exists pg, st', row. split; [exact Hroute | split; [exact Hrow |]].
  apply (Htyped "Pune"%string); reflexivity.
Defined.

(** A query over the catalog of two entries. *)
Lemma graphs_need_a_ranked_region_witness :
  exists pg st' df,
    Visits.route Visits.unnamed_query Visits.first_day = Ok (pg, st')
    /\ page_top_regions pg = Some df.
Proof.
  destruct (graphs_need_a_ranked_region
              Offline.offline Offline.offline Decimal.real_of_str Visits.strip
              Visits.noon Visits.noon insertion_sort_values
              (list string) Visits.graph_titles
              Visits.unnamed_query Visits.first_day eq_refl)
    as (pg & st' & df & Hroute & Hdf & _).
  exists pg, st', df. split; [exact Hroute | exact Hdf].
Defined.

(** Four requests on the first day, two of which pass the validation. *)
Lemma log_has_one_header_witness :
  exists st',
    Visits.serve_all
      [Visits.opening; Visits.named_query; Visits.incomplete_query;
       Visits.unnamed_query] Visits.first_day = Ok st'
    /\ header_once (USER_QUERIES_FILE st')
    /\ logged_rows (USER_QUERIES_FILE st') = 2%nat.
Proof.
  destruct (log_has_one_header
              Offline.offline Offline.offline Decimal.real_of_str Visits.strip
              Visits.noon Visits.noon insertion_sort_values
              (list string) Visits.graph_titles
              [Visits.opening; Visits.named_query; Visits.incomplete_query;
               Visits.unnamed_query] Visits.first_day I)
    as (st' & Hserve & Hshape & Hrows).
  exists st'. split; [exact Hserve | split; [exact Hshape | exact Hrows]].
Defined.

(** A query on the first day: the snapshot of the two entries. *)
Lemma page_shows_saved_snapshot_witness :
  exists pg st' df,
    Visits.route Visits.named_query Visits.first_day = Ok (pg, st')
    /\ page_top_regions pg = Some df
    /\ TOP_REGIONS_FILE (site_files st') = Some df.
Proof.
  apply (page_shows_saved_snapshot
           Offline.offline Offline.offline Decimal.real_of_str Visits.strip
           Visits.noon Visits.noon insertion_sort_values
           (list string) Visits.graph_titles
           Visits.named_query Visits.first_day eq_refl).
  change (site_files Visits.first_day) with Offline.twin_files.
  rewrite twin_catalog_regions. discriminate.
Defined.

(** A query at latitude 10 and longitude 20, where the catalog has its two
    entries. *)
Lemma query_agrees_with_ranking_witness :
  exists pg st' row ranked,
    Visits.route Visits.named_query Visits.first_day = Ok (pg, st')
    /\ page_result pg = Some (QueryRow row)
    /\ region_result Offline.offline "2026-03-21" "12:00:00"
         (declination_angle 80)
         {| region := Some "A"%string;
            latitude := Q2R (10 # 1); longitude := Q2R (20 # 1) |}
       = Ok ranked
    /\ energy ranked = q_energy row.
Proof.
  destruct (query_agrees_with_ranking
              Offline.offline Offline.offline Decimal.real_of_str Visits.strip
              Visits.noon Visits.noon insertion_sort_values
              (list string) Visits.graph_titles
              Visits.named_query Visits.first_day
              {| region := Some "A"%string;
                 latitude := Q2R (10 # 1); longitude := Q2R (20 # 1) |}
              eq_refl eq_refl eq_refl)
    as (pg & st' & row & ranked & Hroute & Hrow & Hranked & _ & _ & _ & _ & He).
  exists pg, st', row, ranked. auto.
Defined.

(** ** The cache of the gateways *)

Section LruFacts.
Variables K V W : Type.
Variable key_eqb : K -> K -> bool.
Variable user_function : K -> W -> except V * W.

Hypothesis key_eqb_sym : forall a b, key_eqb a b = key_eqb b a.
Hypothesis key_eqb_trans :
  forall a b c, key_eqb a b = true -> key_eqb b c = true -> key_eqb a c = true.

Local Abbreviation find := (lru_find (V := V) key_eqb).
Local Abbreviation entry_of := (lru_entry (V := V) key_eqb).
Local Abbreviation distinct := (lru_distinct (V := V) key_eqb).
Local Abbreviation call := (lru_call key_eqb user_function).
Local Abbreviation calls := (lru_calls key_eqb user_function).

Lemma length_removelast_le (c : lru K V) :
  List.length (removelast c) = pred (List.length c).
Proof.
  induction c as [| e c IH]; [reflexivity |].
  destruct c as [| e' c']; [reflexivity |].
  change (removelast (e :: e' :: c')) with (e :: removelast (e' :: c')).
  simpl List.length in *. rewrite IH. reflexivity.
Qed.

Lemma lru_insert_length (key : K) (value : V) (c : lru K V) :
  (List.length c <= CACHE_SIZE)%nat ->
  (List.length (lru_insert key value c) <= CACHE_SIZE)%nat.
Proof.
  intros Hlen. unfold lru_insert. cbn [List.length].
  destruct (Nat.leb_spec CACHE_SIZE (List.length c)).
  - rewrite length_removelast_le. unfold CACHE_SIZE in *. lia.
  - lia.
Qed.

Lemma find_length (key : K) (c : lru K V) (e : K * V) (others : lru K V) :
  find key c = Some (e, others) -> List.length (e :: others) = List.length c.
Proof.
  revert e others. induction c as [| e0 c IH]; intros e others; simpl.
  - discriminate.
  - destruct (key_eqb key (fst e0)).
    + intros H. injection H as <- <-. reflexivity.
    + destruct (find key c) as [[found rest] |]; [| discriminate].
      intros H. injection H as <- <-.
      specialize (IH found rest eq_refl). simpl in *. lia.
Qed.

Lemma call_length (key : K) (st : lru K V * W) :
  (List.length (fst st) <= CACHE_SIZE)%nat ->
  (List.length (fst (snd (call key st))) <= CACHE_SIZE)%nat.
Proof.
  intros Hlen. unfold lru_call.
  destruct (find key (fst st)) as [[e others] |] eqn:Hfind.
  - cbn [fst snd]. rewrite (find_length key (fst st) e others Hfind). exact Hlen.
  - destruct (user_function key (snd st)) as [[value | ex] w]; cbn [fst snd].
    + apply lru_insert_length, Hlen.
    + exact Hlen.
Qed.

Lemma calls_length (keys : list K) (st : lru K V * W) :
  (List.length (fst st) <= CACHE_SIZE)%nat ->
  (List.length (fst (calls keys st)) <= CACHE_SIZE)%nat.
Proof.
  revert st. induction keys as [| key keys IH]; intros st Hlen; simpl.
  - exact Hlen.
  - apply IH, call_length, Hlen.
Qed.

(** *** Finding an entry *)

Lemma find_none (key : K) (c : lru K V) :
  find key c = None -> Forall (fun e => key_eqb key (fst e) = false) c.
Proof.
  induction c as [| e0 c IH]; simpl; intros H; [constructor |].
  destruct (key_eqb key (fst e0)) eqn:E; [discriminate |].
  destruct (find key c) as [[found rest] |]; [discriminate |].
  constructor; [exact E | apply IH; reflexivity].
Qed.

Lemma find_some (key : K) (c : lru K V) (e : K * V) (others : lru K V) :
  find key c = Some (e, others) ->
  key_eqb key (fst e) = true /\ In e c.
Proof.
  revert e others. induction c as [| e0 c IH]; intros e others; simpl.
  - discriminate.
  - destruct (key_eqb key (fst e0)) eqn:E.
    + intros H. injection H as <- <-. auto.
    + destruct (find key c) as [[found rest] |]; [| discriminate].
      intros H. injection H as <- <-.
      destruct (IH found rest eq_refl). auto.
Qed.

Lemma entry_find (key : K) (c : lru K V) (i : nat) (v : V) :
  entry_of key c = Some (i, v) ->
  exists e others, find key c = Some (e, others) /\ snd e = v.
Proof.
  revert i. induction c as [| e0 c IH]; intros i; simpl.
  - discriminate.
  - destruct (key_eqb key (fst e0)).
    + intros H. injection H as <- <-. eauto.
    + destruct (entry_of key c) as [[j w] |]; [| discriminate].
      intros H. injection H as <- <-.
      destruct (IH j eq_refl) as (e & others & -> & Hv). eauto.
Qed.

Lemma entry_bound (key : K) (c : lru K V) (i : nat) (v : V) :
  entry_of key c = Some (i, v) -> (i < List.length c)%nat.
Proof.
  revert i. induction c as [| e0 c IH]; intros i; simpl.
  - discriminate.
  - destruct (key_eqb key (fst e0)).
    + intros H. injection H as <- <-. lia.
    + destruct (entry_of key c) as [[j w] |]; [| discriminate].
      intros H. injection H as <- <-. specialize (IH j eq_refl). lia.
Qed.

Lemma removelast_cons (e : K * V) (c : lru K V) :
  c <> [] -> removelast (e :: c) = e :: removelast c.
Proof. destruct c; [contradiction | reflexivity]. Qed.

Lemma entry_removelast (key : K) (c : lru K V) (i : nat) (v : V) :
  entry_of key c = Some (i, v) ->
  (S i < List.length c)%nat ->
  entry_of key (removelast c) = Some (i, v).
Proof.
  revert i. induction c as [| e0 c IH]; intros i; [discriminate |].
  intros Hentry Hlen.
  assert (Hne : c <> []) by (destruct c; [simpl in Hlen; lia | discriminate]).
  rewrite (removelast_cons e0 c Hne).
  cbn [lru_entry] in Hentry |- *.
  destruct (key_eqb key (fst e0)); [exact Hentry |].
  destruct (entry_of key c) as [[j w] |] eqn:E; [| discriminate].
  injection Hentry as <- <-.
  rewrite (IH j eq_refl) by (simpl in Hlen; lia). reflexivity.
Qed.

(** *** One call *)

Lemma entry_after_other_hit (key other : K) (c : lru K V) (i : nat) (v : V)
    (e : K * V) (others : lru K V) :
  distinct c ->
  entry_of key c = Some (i, v) ->
  find other c = Some (e, others) ->
  exists i', entry_of key (e :: others) = Some (i', v) /\ (i' <= S i)%nat.
Proof.
  revert i e others.
  induction c as [| e0 c IH]; intros i e others Hd Hentry Hfind;
    [discriminate |].
  inversion Hd as [| ? ? Hhead Htail]; subst.
  cbn [lru_find] in Hfind. cbn [lru_entry] in Hentry.
  destruct (key_eqb other (fst e0)) eqn:Eo.
  - injection Hfind as <- <-. cbn [lru_entry].
    destruct (key_eqb key (fst e0)).
    + injection Hentry as <- <-. exists 0%nat. split; [reflexivity | lia].
    + destruct (entry_of key c) as [[j w] |]; [| discriminate].
      injection Hentry as <- <-. exists (S j). split; [reflexivity | lia].
  - destruct (find other c) as [[found rest] |] eqn:Ef; [| discriminate].
    injection Hfind as <- <-.
    destruct (find_some other c found rest Ef) as [_ Hin].
    destruct (key_eqb key (fst e0)) eqn:Ek.
    + injection Hentry as <- <-.
      assert (Hnot : key_eqb key (fst found) = false).
      { destruct (key_eqb key (fst found)) eqn:E; [| reflexivity].
        rewrite Forall_forall in Hhead. specialize (Hhead found Hin).
        rewrite key_eqb_sym in Ek.
        rewrite (key_eqb_trans _ _ _ Ek E) in Hhead. discriminate. }
      cbn [lru_entry]. rewrite Hnot, Ek.
      exists 1%nat. split; [reflexivity | lia].
    + destruct (entry_of key c) as [[j w] |] eqn:Ee; [| discriminate].
      injection Hentry as <- <-.
      destruct (IH j found rest Htail eq_refl eq_refl) as (i' & Hi' & Hle).
      cbn [lru_entry] in Hi' |- *.
      destruct (key_eqb key (fst found)).
      * injection Hi' as <- <-. exists 0%nat. split; [reflexivity | lia].
      * rewrite Ek.
        destruct (entry_of key rest) as [[j' w'] |]; [| discriminate].
        injection Hi' as <- <-. exists (S (S j')). split; [reflexivity | lia].
Qed.

Lemma entry_after_insert (key other : K) (value : V) (c : lru K V)
    (i : nat) (v : V) :
  entry_of key c = Some (i, v) ->
  find other c = None ->
  (S i < CACHE_SIZE)%nat ->
  entry_of key (lru_insert other value c) = Some (S i, v).
Proof.
  intros Hentry Hfind Hi.
  assert (Hnot : key_eqb key other = false).
  { destruct (key_eqb key other) eqn:E; [| reflexivity].
    destruct (entry_find key c i v Hentry) as (e & others & He & _).
    destruct (find_some key c e others He) as [Hke Hin].
    pose proof (find_none other c Hfind) as Hall.
    rewrite Forall_forall in Hall. specialize (Hall e Hin).
    rewrite key_eqb_sym in E.
    rewrite (key_eqb_trans _ _ _ E Hke) in Hall. discriminate. }
  unfold lru_insert. cbn [lru_entry fst snd]. rewrite Hnot.
  destruct (Nat.leb_spec CACHE_SIZE (List.length c)).
  - rewrite (entry_removelast key c i v Hentry) by lia. reflexivity.
  - rewrite Hentry. reflexivity.
Qed.

Lemma distinct_after_hit (key : K) (c : lru K V) (e : K * V) (others : lru K V) :
  distinct c -> find key c = Some (e, others) -> distinct (e :: others).
Proof.
  revert e others. induction c as [| e0 c IH]; intros e others Hd Hfind;
    [discriminate |].
  inversion Hd as [| ? ? Hhead Htail]; subst.
  cbn [lru_find] in Hfind.
  destruct (key_eqb key (fst e0)).
  - injection Hfind as <- <-. exact Hd.
  - destruct (find key c) as [[found rest] |] eqn:Ef; [| discriminate].
    injection Hfind as <- <-.
    specialize (IH found rest Htail eq_refl).
    inversion IH as [| ? ? Hfound Hrest]; subst.
    destruct (find_some key c found rest Ef) as [_ Hin].
    constructor.
    + constructor; [| exact Hfound].
      rewrite Forall_forall in Hhead. rewrite key_eqb_sym. apply Hhead, Hin.
    + constructor; [| exact Hrest].
      apply Forall_forall. intros x Hx.
      rewrite Forall_forall in Hhead. apply Hhead.
      assert (Hperm : forall y, In y (found :: rest) -> In y c).
      { clear - Ef. revert found rest Ef.
        induction c as [| e1 c IHc]; intros found rest Ef y Hy; [discriminate |].
        cbn [lru_find] in Ef. destruct (key_eqb key (fst e1)).
        - injection Ef as <- <-. exact Hy.
        - destruct (find key c) as [[f r] |] eqn:E; [| discriminate].
          injection Ef as <- <-.
          destruct Hy as [<- | [<- | Hy]].
          + right. apply (IHc f r eq_refl). left. reflexivity.
          + left. reflexivity.
          + right. apply (IHc f r eq_refl). right. exact Hy. }
      apply Hperm. right. exact Hx.
Qed.

Lemma distinct_removelast (c : lru K V) : distinct c -> distinct (removelast c).
Proof.
  induction c as [| e0 c IH]; intros Hd; [exact Hd |].
  destruct c as [| e1 c']; [constructor |].
  change (removelast (e0 :: e1 :: c')) with (e0 :: removelast (e1 :: c')).
  inversion Hd as [| ? ? Hhead Htail]; subst.
  constructor; [| apply IH, Htail].
  apply Forall_forall. intros x Hx.
  rewrite Forall_forall in Hhead. apply Hhead.
  rewrite (app_removelast_last e0 (l := e1 :: c')) by discriminate.
  apply in_or_app. left. exact Hx.
Qed.

Lemma distinct_after_call (key : K) (st : lru K V * W) :
  distinct (fst st) -> distinct (fst (snd (call key st))).
Proof.
  intros Hd. unfold lru_call.
  destruct (find key (fst st)) as [[e others] |] eqn:Hfind.
  - cbn [fst snd]. exact (distinct_after_hit key (fst st) e others Hd Hfind).
  - destruct (user_function key (snd st)) as [[value | ex] w]; cbn [fst snd];
      [| exact Hd].
    unfold lru_insert. constructor.
    + pose proof (find_none key (fst st) Hfind) as Hall.
      destruct (CACHE_SIZE <=? List.length (fst st))%nat; [| exact Hall].
      apply Forall_forall. intros x Hx.
      rewrite Forall_forall in Hall. apply Hall.
      destruct (fst st) as [| e0 c0]; [contradiction |].
      rewrite (app_removelast_last e0 (l := e0 :: c0)) by discriminate.
      apply in_or_app. left. exact Hx.
    + destruct (CACHE_SIZE <=? List.length (fst st))%nat;
        [apply distinct_removelast, Hd | exact Hd].
Qed.

Lemma distinct_after_calls (keys : list K) (st : lru K V * W) :
  distinct (fst st) -> distinct (fst (calls keys st)).
Proof.
  revert st. induction keys as [| key keys IH]; intros st Hd; simpl.
  - exact Hd.
  - apply IH, distinct_after_call, Hd.
Qed.

Lemma entry_after_call (key other : K) (st : lru K V * W) (i : nat) (v : V) :
  distinct (fst st) ->
  entry_of key (fst st) = Some (i, v) ->
  (S i < CACHE_SIZE)%nat ->
  exists i', entry_of key (fst (snd (call other st))) = Some (i', v)
             /\ (i' <= S i)%nat.
Proof.
  intros Hd Hentry Hi. unfold lru_call.
  destruct (find other (fst st)) as [[e others] |] eqn:Hfind.
  - cbn [fst snd].
    exact (entry_after_other_hit key other (fst st) i v e others Hd Hentry Hfind).
  - destruct (user_function other (snd st)) as [[value | ex] w]; cbn [fst snd].
    + exists (S i). split; [| lia].
      exact (entry_after_insert key other value (fst st) i v Hentry Hfind Hi).
    + exists i. split; [exact Hentry | lia].
Qed.

Lemma entry_after_calls (key : K) (keys : list K) (st : lru K V * W)
    (i : nat) (v : V) :
  distinct (fst st) ->
  entry_of key (fst st) = Some (i, v) ->
  (i + List.length keys < CACHE_SIZE)%nat ->
  exists i', entry_of key (fst (calls keys st)) = Some (i', v).
Proof.
  revert st i. induction keys as [| other keys IH]; intros st i Hd Hentry Hlen.
  - simpl. eauto.
  - simpl in Hlen |- *.
    destruct (entry_after_call key other st i v Hd Hentry ltac:(lia))
      as (i' & Hi' & Hle).
    apply (IH _ i'); [apply distinct_after_call, Hd | exact Hi' | lia].
Qed.

Lemma entry_after_first_call (key : K) (st : lru K V * W) (v : V) :
  key_eqb key key = true ->
  fst (call key st) = Ok v ->
  entry_of key (fst (snd (call key st))) = Some (0%nat, v).
Proof.
  intros Hrefl. unfold lru_call.
  destruct (find key (fst st)) as [[e others] |] eqn:Hfind.
  - cbn [fst snd]. intros H. injection H as <-.
    destruct (find_some key (fst st) e others Hfind) as [Hk _].
    cbn [lru_entry]. rewrite Hk. reflexivity.
  - destruct (user_function key (snd st)) as [[value | ex] w]; cbn [fst snd];
      [| discriminate].
    intros H. injection H as <-. unfold lru_insert. cbn [lru_entry fst snd].
    rewrite Hrefl. reflexivity.
Qed.

Lemma call_hit (key : K) (st : lru K V * W) (i : nat) (v : V) :
  entry_of key (fst st) = Some (i, v) ->
  fst (call key st) = Ok v /\ snd (snd (call key st)) = snd st.
Proof.
  intros Hentry.
  destruct (entry_find key (fst st) i v Hentry) as (e & others & Hfind & Hv).
  unfold lru_call. rewrite Hfind. cbn [fst snd]. rewrite Hv. auto.
Qed.

(** X9. Whatever is looked up, and in whatever order, a cache that starts
    empty never holds more than 512 entries. *)
Theorem lru_never_exceeds_capacity (keys : list K) (w : W) :
  (List.length (fst (calls keys ([], w))) <= CACHE_SIZE)%nat.
Proof.
  apply calls_length. simpl. unfold CACHE_SIZE. lia.
Qed.

(** X10. For keys compared by an equality that is symmetric and transitive,
    a result stays in the cache while fewer than 512 other lookups follow
    the one that returned it: the next lookup of the key returns the same
    result and the decorated function is not called, so the world is as it
    was. *)
Theorem lru_keeps_recent_result (key : K) (before between : list K)
    (w : W) (v : V) :
  key_eqb key key = true ->
  (List.length between < CACHE_SIZE)%nat ->
  fst (call key (calls before ([], w))) = Ok v ->
  fst (call key (calls between (snd (call key (calls before ([], w)))))) = Ok v
  /\ snd (snd (call key (calls between
                           (snd (call key (calls before ([], w)))))))
     = snd (calls between (snd (call key (calls before ([], w))))).
Proof.
  intros Hrefl Hlen Hfirst.
  set (st0 := calls before ([], w)) in *.
  assert (Hd0 : distinct (fst st0)).
  { apply distinct_after_calls. constructor. }
  pose proof (entry_after_first_call key st0 v Hrefl Hfirst) as Hentry.
  pose proof (distinct_after_call key st0 Hd0) as Hd1.
  destruct (entry_after_calls key between (snd (call key st0)) 0 v
              Hd1 Hentry ltac:(simpl; lia)) as [i Hi].
  exact (call_hit key _ i v Hi).
Qed.

End LruFacts.

(** ** The memoised weather gateway *)

Section MemoWeather.
Context {F : Type} {FA : Arith F} {FR : Round F}.
Variable open_meteo_at : nat -> F -> F -> except (response F).

Local Abbreviation cached := (memo_get_weather_data_cached open_meteo_at).
Local Abbreviation memo := (memo_get_weather_data open_meteo_at).

Lemma weather_function_returns (key : F * F) (sent : nat) :
  exists sample,
    weather_function open_meteo_at key sent = (Ok sample, S sent).
Proof.
  unfold weather_function.
  destruct (get_weather_data_cached_returns (open_meteo_at sent)
              (fst key) (snd key)) as [sample ->].
  eauto.
Qed.

Lemma cached_returns (lat lon : F) (st : weather_state) :
  exists sample st', cached lat lon st = (Ok sample, st').
Proof.
  unfold memo_get_weather_data_cached, lru_call.
  destruct (lru_find coordinates_eqb (lat, lon) (fst st)) as [[e others] |].
  - eauto.
  - destruct (weather_function_returns (lat, lon) (snd st)) as [sample ->].
    eauto.
Qed.

Lemma second_lookup_hits (key : F * F) (st : weather_state) :
  coordinates_eqb key key = true ->
  exists sample,
    fst (cached (fst key) (snd key) st) = Ok sample
    /\ cached (fst key) (snd key) (snd (cached (fst key) (snd key) st))
       = (Ok sample, snd (cached (fst key) (snd key) st)).
Proof.
  intros Hrefl.
  destruct (cached_returns (fst key) (snd key) st) as (sample & st1 & Hcall).
  exists sample. rewrite Hcall. cbn [fst snd]. split; [reflexivity |].
  unfold memo_get_weather_data_cached in *.
  rewrite <- surjective_pairing in *.
  pose proof (entry_after_first_call _ _ _ coordinates_eqb
                (weather_function open_meteo_at) key st sample Hrefl) as Hentry.
  rewrite Hcall in Hentry. cbn [fst snd] in Hentry.
  specialize (Hentry eq_refl).
  destruct st1 as [cache1 sent1]. cbn [fst] in Hentry.
  unfold lru_call. cbn [fst snd].
  destruct cache1 as [| e rest]; [discriminate |].
  cbn [lru_entry] in Hentry. cbn [lru_find].
  destruct (coordinates_eqb key (fst e));
    [| destruct (lru_entry _ _ _) as [[? ?] |]; discriminate].
  injection Hentry as ->. destruct e; reflexivity.
Qed.

(** X11. Two lookups in a row whose coordinates round to the same four
    decimals, neither being NaN, send one request at most: the second returns
    the sample of the first and leaves the number of requests sent, and the
    whole cache, as they were -- whatever the service would answer by
    then. *)
Theorem same_rounded_coordinates_share_a_request
    (lat lon lat' lon' : F) (st : weather_state) :
  coordinates_eqb (py_round lat 4, py_round lon 4)
                  (py_round lat 4, py_round lon 4) = true ->
  py_round lat' 4 = py_round lat 4 ->
  py_round lon' 4 = py_round lon 4 ->
  exists sample,
    fst (memo lat lon st) = Ok sample
    /\ memo lat' lon' (snd (memo lat lon st))
       = (Ok sample, snd (memo lat lon st)).
Proof.
  intros Hrefl Hlat Hlon. unfold memo_get_weather_data.
  rewrite Hlat, Hlon.
  exact (second_lookup_hits (py_round lat 4, py_round lon 4) st Hrefl).
Qed.

(** X12. The sample of a failed fetch is cached like any other: after a
    lookup whose request fails, the next lookup of the same coordinates
    returns the fallback (25, 0) again without sending a request, also when
    the service would answer by then. *)
Theorem fallback_sample_is_cached (lat lon : F) (st : weather_state) (e : exn) :
  coordinates_eqb (py_round lat 4, py_round lon 4)
                  (py_round lat 4, py_round lon 4) = true ->
  lru_find coordinates_eqb (py_round lat 4, py_round lon 4) (fst st) = None ->
  open_meteo_at (snd st) (py_round lat 4) (py_round lon 4) = Raise e ->
  fst (memo lat lon st) = Ok fallback_sample
  /\ snd (snd (memo lat lon st)) = S (snd st)
  /\ memo lat lon (snd (memo lat lon st))
     = (Ok fallback_sample, snd (memo lat lon st)).
Proof.
  intros Hrefl Hmiss Hfail.
  assert (Hfirst : fst (memo lat lon st) = Ok fallback_sample
                   /\ snd (snd (memo lat lon st)) = S (snd st)).
  { unfold memo_get_weather_data, memo_get_weather_data_cached, lru_call.
    rewrite Hmiss. unfold weather_function. cbn [fst snd].
    unfold get_weather_data_cached.
    rewrite (try_except_Exception_raise _ _ e
               (weather_body_transport _ _ _ e Hfail)).
    cbn [fst snd]. split; reflexivity. }
  destruct Hfirst as [Hsample Hsent].
  split; [exact Hsample | split; [exact Hsent |]].
  destruct (second_lookup_hits (py_round lat 4, py_round lon 4) st Hrefl)
    as (sample & Hs & Hagain).
  unfold memo_get_weather_data in *. cbn [fst snd] in Hs, Hagain.
  rewrite Hsample in Hs. injection Hs as <-. exact Hagain.
Qed.

End MemoWeather.

(** ** Coordinates as keys *)

Lemma float_eqb_sym (x y : Binary64.float) : float_eqb x y = float_eqb y x.
Proof. unfold float_eqb. apply andb_comm. Qed.

Lemma float_eqb_trans (x y z : Binary64.float) :
  float_eqb x y = true -> float_eqb y z = true -> float_eqb x z = true.
Proof.
  unfold float_eqb. rewrite !andb_true_iff.
  intros [Hxy Hyx] [Hyz Hzy].
  split; [exact (Binary64Order.fle_trans x y z Hxy Hyz)
         | exact (Binary64Order.fle_trans z y x Hzy Hyx)].
Qed.

Lemma coordinates_eqb_sym (a b : Binary64.float * Binary64.float) :
  coordinates_eqb a b = coordinates_eqb b a.
Proof.
  unfold coordinates_eqb.
  rewrite (float_eqb_sym (fst a)), (float_eqb_sym (snd a)). reflexivity.
Qed.

Lemma coordinates_eqb_trans (a b c : Binary64.float * Binary64.float) :
  coordinates_eqb a b = true -> coordinates_eqb b c = true ->
  coordinates_eqb a c = true.
Proof.
  unfold coordinates_eqb. rewrite !andb_true_iff.
  intros [H1 H2] [H3 H4].
  split; eapply float_eqb_trans; eassumption.
Qed.

(** Pune, then Delhi, then Pune again: the forecast of the first lookup. *)
Lemma lru_keeps_recent_result_witness :
  fst (lru_call coordinates_eqb (weather_function Forecasts.steady)
         Forecasts.pune
         (lru_calls coordinates_eqb (weather_function Forecasts.steady)
            [Forecasts.delhi]
            (snd (lru_call coordinates_eqb
                    (weather_function Forecasts.steady)
                    Forecasts.pune Forecasts.cold))))
  = Ok (JNum (of_Z 31), of_Z 70).
Proof.
  apply (lru_keeps_recent_result _ _ _ coordinates_eqb
           (weather_function Forecasts.steady)
           coordinates_eqb_sym coordinates_eqb_trans
           Forecasts.pune [] [Forecasts.delhi] 0%nat
           (JNum (of_Z 31), of_Z 70)).
  - vm_compute. reflexivity.
  - unfold CACHE_SIZE. simpl. lia.
  - vm_compute. reflexivity.
Defined.

(** Two points that differ in the fifth decimal. *)
Lemma same_rounded_coordinates_share_a_request_witness :
  exists sample,
    fst (memo_get_weather_data Forecasts.steady
           (fst Forecasts.pune) (snd Forecasts.pune) Forecasts.cold)
    = Ok sample
    /\ memo_get_weather_data Forecasts.steady
         (fst Forecasts.near_pune) (snd Forecasts.near_pune)
         (snd (memo_get_weather_data Forecasts.steady
                 (fst Forecasts.pune) (snd Forecasts.pune) Forecasts.cold))
       = (Ok sample,
          snd (memo_get_weather_data Forecasts.steady
                 (fst Forecasts.pune) (snd Forecasts.pune) Forecasts.cold)).
Proof.
  apply (same_rounded_coordinates_share_a_request Forecasts.steady
           (fst Forecasts.pune) (snd Forecasts.pune)
           (fst Forecasts.near_pune) (snd Forecasts.near_pune)
           Forecasts.cold); vm_compute; reflexivity.
Defined.

(** The first request times out; the service is back for the second. *)
Lemma fallback_sample_is_cached_witness :
  fst (memo_get_weather_data Forecasts.recovering
         (fst Forecasts.pune) (snd Forecasts.pune) Forecasts.cold)
  = Ok fallback_sample
  /\ memo_get_weather_data Forecasts.recovering
       (fst Forecasts.pune) (snd Forecasts.pune)
       (snd (memo_get_weather_data Forecasts.recovering
               (fst Forecasts.pune) (snd Forecasts.pune) Forecasts.cold))
     = (Ok fallback_sample,
        snd (memo_get_weather_data Forecasts.recovering
               (fst Forecasts.pune) (snd Forecasts.pune) Forecasts.cold)).
Proof.
  destruct (fallback_sample_is_cached Forecasts.recovering
              (fst Forecasts.pune) (snd Forecasts.pune) Forecasts.cold
              Timeout)
    as (Hfirst & _ & Hagain).
  - vm_compute. reflexivity.
  - reflexivity.
  - reflexivity.
  - split; [exact Hfirst | exact Hagain].
Defined.

(** ** Double precision: sums, products and exact values *)

Module Binary64Arith.
Import Binary64 Binary64Facts Binary64Order.
Local Open Scope Z_scope.

Lemma finish_small (k : Z) :
  - overflow_threshold < k < overflow_threshold -> finish k = Fin k.
Proof.
  intros [Hlo Hhi]. unfold finish.
  destruct (Z.leb_spec overflow_threshold k); [lia |].
  destruct (Z.leb_spec k (- overflow_threshold)); [lia | reflexivity].
Qed.

Lemma fmul_comm (x y : float) : fmul x y = fmul y x.
Proof.
  destruct x as [a | | |], y as [b | | |]; simpl; try reflexivity.
  rewrite Z.mul_comm. reflexivity.
Qed.

Lemma fmul_fin_mono (c a b : Z) :
  0 <= c -> a <= b -> fle (fmul (Fin c) (Fin a)) (fmul (Fin c) (Fin b)).
Proof.
  intros Hc Hle. simpl.
  apply finish_mono, round_units_mono; [exact unit_scale_pos | nia].
Qed.

Lemma fadd_fin_mono (a1 a2 b1 b2 : Z) :
  a1 <= a2 -> b1 <= b2 ->
  fle (fadd (Fin a1) (Fin b1)) (fadd (Fin a2) (Fin b2)).
Proof.
  intros Ha Hb. simpl. apply finish_mono, round_units_mono; lia.
Qed.

(** *** Values that rounding leaves alone *)

Lemma round_units_scale (q d : Z) :
  0 < d -> round_units (q * d) d = round_units q 1.
Proof.
  intros Hd. unfold round_units, shift.
  rewrite Z.abs_mul, (Z.abs_eq d) by lia.
  rewrite Z.div_mul by lia. rewrite Z.div_1_r.
  set (s := Z.max 0 (Z.log2 (Z.abs q) - 52)).
  assert (Hp : 0 < 2 ^ s) by (apply Z.pow_pos_nonneg; unfold s; lia).
  f_equal. unfold round_half_even.
  rewrite (Z.mul_comm d (2 ^ s)), Z.mul_1_l.
  rewrite Z.div_mul_cancel_r by lia.
  rewrite Z.mul_mod_distr_r by lia.
  destruct (Z.compare_spec (2 * (q mod 2 ^ s * d)) (2 ^ s * d));
    destruct (Z.compare_spec (2 * (q mod 2 ^ s)) (2 ^ s));
    try reflexivity; nia.
Qed.

Lemma round_units_pow2_multiple (z e : Z) :
  0 <= e -> 0 <= z < 2 ^ 53 -> round_units (z * 2 ^ e) 1 = z * 2 ^ e.
Proof.
  intros He [Hz0 Hz]. destruct (Z.eq_dec z 0) as [-> | Hnz].
  - rewrite Z.mul_0_l. reflexivity.
  - unfold round_units, shift. rewrite Z.div_1_r, Z.mul_1_l.
    assert (Hpe : 0 < 2 ^ e) by (apply Z.pow_pos_nonneg; lia).
    rewrite Z.abs_eq by nia.
    rewrite Z.log2_mul_pow2 by lia.
    assert (Hlog : 0 <= Z.log2 z < 53).
    { split; [apply Z.log2_nonneg |]. apply Z.log2_lt_pow2; lia. }
    set (s := Z.max 0 (e + Z.log2 z - 52)).
    assert (Hs : 0 <= s <= e) by (unfold s; lia).
    assert (Hps : 0 < 2 ^ s) by (apply Z.pow_pos_nonneg; lia).
    replace (z * 2 ^ e) with ((z * 2 ^ (e - s)) * 2 ^ s).
    + rewrite round_half_even_exact by assumption. ring.
    + rewrite <- Z.mul_assoc, <- Z.pow_add_r by lia. do 2 f_equal. lia.
Qed.

Lemma round_units_integer (z : Z) :
  0 <= z < 2 ^ 53 -> round_units (z * unit_scale) 1 = z * unit_scale.
Proof.
  intros Hz. unfold unit_scale. apply round_units_pow2_multiple; lia.
Qed.

Lemma integer_below_overflow (z : Z) :
  0 <= z < 2 ^ 53 ->
  - overflow_threshold < z * unit_scale < overflow_threshold.
Proof.
  intros [Hz0 Hz]. pose proof unit_scale_pos as HU.
  assert (H : 2 ^ 53 * unit_scale <= overflow_threshold)
    by (vm_compute; discriminate).
  pose proof overflow_threshold_pos. nia.
Qed.

Lemma of_Z_integer (z : Z) :
  0 <= z < 2 ^ 53 -> of_Z z = Fin (z * unit_scale).
Proof.
  intros Hz. unfold of_Z. simpl. unfold fof_Q. simpl.
  rewrite round_units_integer by assumption.
  apply finish_small, integer_below_overflow, Hz.
Qed.

End Binary64Arith.

(** ** Energy and cloud cover within their ranges *)

Section EnergyRanges.
Import Binary64 Binary64Facts Binary64Order Binary64Arith.
Local Open Scope Z_scope.

Lemma calculate_energy_unfold (i d : float) :
  calculate_energy i d
  = fround (fdiv (fmul (fmul i d) (Fin (3600 * unit_scale)))
                 (Fin (1000000 * unit_scale))) 2.
Proof.
  unfold calculate_energy.
  rewrite (of_Z_integer 3600), (of_Z_integer 1000000) by lia.
  reflexivity.
Qed.

Lemma calculate_energy_of_product (x y : float) :
  fle x y ->
  fle (fround (fdiv (fmul x (Fin (3600 * unit_scale)))
                    (Fin (1000000 * unit_scale))) 2)
      (fround (fdiv (fmul y (Fin (3600 * unit_scale)))
                    (Fin (1000000 * unit_scale))) 2).
Proof.
  intros Hle. pose proof unit_scale_pos as HU.
  apply fround_2_mono, fdiv_mono; [lia |].
  rewrite (fmul_comm x), (fmul_comm y). apply fmul_mono; [lia | exact Hle].
Qed.

Lemma calculate_energy_zero_daylight (a : Z) :
  calculate_energy (Fin a) (Fin 0) = Fin 0.
Proof.
  rewrite calculate_energy_unfold. cbn [fmul]. rewrite Z.mul_0_r.
  vm_compute. reflexivity.
Qed.

Lemma calculate_energy_zero_intensity (b : Z) :
  calculate_energy (Fin 0) (Fin b) = Fin 0.
Proof.
  rewrite calculate_energy_unfold. cbn [fmul]. rewrite Z.mul_0_l.
  vm_compute. reflexivity.
Qed.

Lemma calculate_energy_mono_daylight (a b1 b2 : Z) :
  0 <= a -> b1 <= b2 ->
  fle (calculate_energy (Fin a) (Fin b1)) (calculate_energy (Fin a) (Fin b2)).
Proof.
  intros Ha Hb. rewrite !calculate_energy_unfold.
  apply calculate_energy_of_product, fmul_fin_mono; assumption.
Qed.

Lemma calculate_energy_mono_intensity (a1 a2 b : Z) :
  0 <= b -> a1 <= a2 ->
  fle (calculate_energy (Fin a1) (Fin b)) (calculate_energy (Fin a2) (Fin b)).
Proof.
  intros Hb Ha. rewrite !calculate_energy_unfold.
  apply calculate_energy_of_product.
  rewrite (fmul_comm (Fin a1)), (fmul_comm (Fin a2)).
  apply fmul_fin_mono; assumption.
Qed.

(** X13. For finite operands that are not negative, [calculate_energy] grows,
    or stays, when the daylight grows and when the intensity grows. *)
Theorem calculate_energy_is_monotone (a1 a2 b1 b2 : Z) :
  0 <= a1 <= a2 -> 0 <= b1 <= b2 ->
  fle (calculate_energy (Fin a1) (Fin b1)) (calculate_energy (Fin a2) (Fin b2)).
Proof.
  intros [Ha1 Ha] [Hb1 Hb].
  apply fle_trans with (calculate_energy (Fin a1) (Fin b2)).
  - apply calculate_energy_mono_daylight; assumption.
  - apply calculate_energy_mono_intensity; lia.
Qed.

(** X14. With a daylight of zero -- the value [daylight_hours] falls back to --
    or an intensity of zero the energy is zero, whatever the other finite
    operand; and for operands that are not negative the energy is never
    negative. *)
Theorem calculate_energy_zero_and_sign (a b : Z) :
  calculate_energy (Fin a) (Fin 0) = Fin 0
  /\ calculate_energy (Fin 0) (Fin b) = Fin 0
  /\ (0 <= a -> 0 <= b -> fle (Fin 0) (calculate_energy (Fin a) (Fin b))).
Proof.
  split; [apply calculate_energy_zero_daylight |].
  split; [apply calculate_energy_zero_intensity |].
  intros Ha Hb. rewrite <- (calculate_energy_zero_daylight a).
  apply calculate_energy_mono_daylight; assumption.
Qed.

Lemma solar_intensity_range (c : float) :
  fle (of_Z 0) c -> fle c (of_Z 100) ->
  fle (of_Z 0) (solar_intensity c) /\ fle (solar_intensity c) (of_Z 1367).
Proof.
  intros Hlo Hhi. split.
  - apply fle_trans with (solar_intensity (of_Z 100)).
    + vm_compute. reflexivity.
    + apply solar_intensity_antitone, Hhi.
  - apply fle_trans with (solar_intensity (of_Z 0)).
    + apply solar_intensity_antitone, Hlo.
    + vm_compute. reflexivity.
Qed.

(** X15. For every cloud cover between 0 and 100, not only at the two ends,
    the intensity lies between 0 and the solar constant 1367. *)
Theorem solar_intensity_within_range (c : float) :
  percent c ->
  fle (of_Z 0) (solar_intensity c) /\ fle (solar_intensity c) (of_Z 1367).
Proof.
  intros [Hlo Hhi]. exact (solar_intensity_range c Hlo Hhi).
Qed.

(** *** The mean of readings *)

Lemma percent_fin (r : float) :
  percent r -> exists k, r = Fin k /\ 0 <= k <= 100 * unit_scale.
Proof.
  unfold percent. rewrite (of_Z_integer 0), (of_Z_integer 100) by lia.
  rewrite Z.mul_0_l. intros [Hlo Hhi].
  destruct r as [k | | |]; try discriminate.
  exists k. apply fle_fin in Hlo. apply fle_fin in Hhi. auto.
Qed.

Lemma sum_of_percents (readings : list float) (a j : Z) :
  Forall percent readings ->
  0 <= j ->
  100 * (j + Z.of_nat (List.length readings)) < 2 ^ 53 ->
  0 <= a <= 100 * j * unit_scale ->
  exists s,
    fold_left fadd readings (Fin a) = Fin s
    /\ 0 <= s <= 100 * (j + Z.of_nat (List.length readings)) * unit_scale.
Proof.
  revert a j. induction readings as [| r rs IH]; intros a j Hall Hj Hlen Ha.
  - exists a. cbn [fold_left List.length].
    change (Z.of_nat 0) with 0. rewrite Z.add_0_r. split; [reflexivity | lia].
  - inversion Hall as [| ? ? Hr Hrs]; subst.
    destruct (percent_fin r Hr) as (k & -> & Hk).
    cbn [fold_left]. cbn [List.length] in Hlen |- *.
    rewrite Nat2Z.inj_succ in Hlen |- *.
    pose proof unit_scale_pos as HU.
    assert (Hexact : round_units (100 * (j + 1) * unit_scale) 1
                     = 100 * (j + 1) * unit_scale)
      by (apply round_units_integer; lia).
    assert (Hup : round_units (a + k) 1 <= 100 * (j + 1) * unit_scale).
    { rewrite <- Hexact. apply round_units_mono; lia. }
    assert (Hlow : 0 <= round_units (a + k) 1)
      by (apply round_units_nonneg; lia).
    assert (Hfin : fadd (Fin a) (Fin k) = Fin (round_units (a + k) 1)).
    { simpl. apply finish_small.
      pose proof (integer_below_overflow (100 * (j + 1)) ltac:(lia)). lia. }
    rewrite Hfin.
    destruct (IH (round_units (a + k) 1) (j + 1) Hrs ltac:(lia) ltac:(lia)
                ltac:(lia)) as (s & Hs & Hbound).
    exists s. split; [exact Hs | lia].
Qed.

Lemma mean_of_percents (readings : list float) :
  readings <> [] ->
  Forall percent readings ->
  100 * Z.of_nat (List.length readings) < 2 ^ 53 ->
  percent (arithmetic_mean readings).
Proof.
  intros Hne Hall Hlen.
  unfold arithmetic_mean.
  set (n := Z.of_nat (List.length readings)) in *.
  assert (Hn : 0 < n) by (destruct readings; [contradiction | unfold n; simpl; lia]).
  pose proof unit_scale_pos as HU.
  change (@add float float_Arith) with fadd.
  change (@div float float_Arith) with fdiv.
  rewrite (of_Z_integer 0) by lia. rewrite Z.mul_0_l.
  destruct (sum_of_percents readings 0 0 Hall ltac:(lia) ltac:(fold n; lia)
              ltac:(lia)) as (s & -> & Hs).
  fold n in Hs. rewrite (of_Z_integer n) by lia.
  unfold percent. rewrite (of_Z_integer 0), (of_Z_integer 100) by lia.
  rewrite Z.mul_0_l.
  assert (Hnz : (n * unit_scale =? 0) = false) by (apply Z.eqb_neq; nia).
  assert (Hpos : (n * unit_scale <? 0) = false) by (apply Z.ltb_ge; nia).
  unfold fdiv, round_rat. rewrite Hnz, Hpos.
  assert (Hup : round_units (s * unit_scale) (n * unit_scale)
                <= 100 * unit_scale).
  { apply Z.le_trans
      with (round_units (100 * unit_scale * (n * unit_scale))
              (n * unit_scale)).
    - apply round_units_mono; nia.
    - rewrite round_units_scale by nia.
      rewrite round_units_integer by lia. lia. }
  assert (Hlow : 0 <= round_units (s * unit_scale) (n * unit_scale))
    by (apply round_units_nonneg; nia).
  rewrite finish_small.
  - split; apply fle_fin; lia.
  - pose proof (integer_below_overflow 100 ltac:(lia)). lia.
Qed.

(** X16. From a list of hourly readings that are all between 0 and 100 --
    at least one, and fewer than 2^53 / 100 of them -- line 60 computes a
    cloud cover that is between 0 and 100 itself: the rounding of the sum
    and of the quotient never carries it outside.  The intensity computed
    from it is then between 0 and 1367. *)
Theorem cloud_average_is_a_percent (readings : list float) :
  readings <> [] ->
  Forall percent readings ->
  100 * Z.of_nat (List.length readings) < 2 ^ 53 ->
  exists clouds,
    average_clouds (readings_array readings) = Ok clouds
    /\ percent clouds
    /\ fle (of_Z 0) (solar_intensity clouds)
    /\ fle (solar_intensity clouds) (of_Z 1367).
Proof.
  intros Hne Hall Hlen.
  exists (arithmetic_mean readings).
  split; [exact (average_clouds_readings readings Hne) |].
  pose proof (mean_of_percents readings Hne Hall Hlen) as Hmean.
  split; [exact Hmean |].
  destruct Hmean as [Hlo Hhi].
  exact (solar_intensity_range _ Hlo Hhi).
Qed.

End EnergyRanges.

(** Half the clear-sky intensity over ten hours against the full intensity
    over twelve. *)
Lemma calculate_energy_is_monotone_witness :
  Binary64.fle
    (calculate_energy (Binary64.Fin (683 * Binary64.unit_scale))
                      (Binary64.Fin (10 * Binary64.unit_scale)))
    (calculate_energy (Binary64.Fin (1367 * Binary64.unit_scale))
                      (Binary64.Fin (12 * Binary64.unit_scale))).
Proof.
  pose proof Binary64Facts.unit_scale_pos as HU.
  apply (calculate_energy_is_monotone
           (683 * Binary64.unit_scale) (1367 * Binary64.unit_scale)
           (10 * Binary64.unit_scale) (12 * Binary64.unit_scale)); lia.
Defined.

(** The clear-sky intensity over twelve hours. *)
Lemma calculate_energy_zero_and_sign_witness :
  Binary64.fle (Binary64.Fin 0)
    (calculate_energy (Binary64.Fin (1367 * Binary64.unit_scale))
                      (Binary64.Fin (12 * Binary64.unit_scale))).
Proof.
  pose proof Binary64Facts.unit_scale_pos as HU.
  apply (proj2 (proj2 (calculate_energy_zero_and_sign
                         (1367 * Binary64.unit_scale)
                         (12 * Binary64.unit_scale)))); lia.
Defined.

(** A cloud cover of 50. *)
Lemma solar_intensity_within_range_witness :
  Binary64.fle (of_Z 0) (solar_intensity Samples.cloud_50)
  /\ Binary64.fle (solar_intensity Samples.cloud_50) (of_Z 1367).
Proof.
  apply (solar_intensity_within_range Samples.cloud_50).
  split; vm_compute; reflexivity.
Defined.

(** The readings 50, 70 and 90. *)
Lemma cloud_average_is_a_percent_witness :
  exists clouds,
    average_clouds
      (readings_array [of_Z 50; of_Z 70; of_Z 90 : Binary64.float])
    = Ok clouds
    /\ percent clouds.
Proof.
  destruct (cloud_average_is_a_percent [of_Z 50; of_Z 70; of_Z 90])
    as (clouds & Hmean & Hpercent & _).
  - discriminate.
  - repeat constructor; vm_compute; reflexivity.
  - simpl. lia.
  - exists clouds. split; [exact Hmean | exact Hpercent].
Defined.

(** ** Declination and daylight over the reals *)

Section Astronomy.
Import Ideal.
Local Open Scope R_scope.




















End Astronomy.




(** ** The catalog, record by record *)

Section CatalogFile.
Context {F : Type}.
Variable float_of_str : string -> option F.
Local Open Scope string_scope.

Lemma read_rows_length (rows : list csv_row) :
  (List.length (read_rows float_of_str rows) <= List.length rows)%nat.
Proof.
  induction rows as [| row rows IH]; simpl; [lia |].
  destruct (region_of_row float_of_str row); simpl; lia.
Qed.

(** X22. The catalog is read record by record: what a record contributes
    does not depend on the records around it, so the entries of a file are
    those of its first part followed by those of the rest, each part under
    the same header; and there are never more entries than records. *)
Theorem read_regions_record_by_record
    (header : list string) (records1 records2 : list (list string)) :
  read_regions float_of_str (Some (header :: (records1 ++ records2)%list))
  = (read_regions float_of_str (Some (header :: records1))
     ++ read_regions float_of_str (Some (header :: records2)))%list
  /\ (List.length (read_regions float_of_str (Some (header :: records1)))
      <= List.length records1)%nat.
Proof.
  unfold read_regions, DictReader. split.
  - rewrite filter_app, map_app. apply read_rows_app.
  - etransitivity; [apply read_rows_length |].
    rewrite length_map. apply filter_length_le.
Qed.

Lemma region_of_record (record : list string) (entry : region_entry F) :
  record_of_entry float_of_str record entry ->
  is_blank record = false
  /\ region_of_row float_of_str (zip_restval catalog_header record) = Ok entry.
Proof.
  intros (name & lat_str & lon_str & -> & Hname & Hlat & Hlon).
  split; [reflexivity |].
  unfold region_of_row. cbn. rewrite Hlat. cbn. rewrite Hlon. cbn.
  destruct entry as [r la lo]. cbn in *. rewrite Hname. reflexivity.
Qed.

(** X23. A catalog with the header region, latitude, longitude whose records
    all hold a name and two numerals is read in full: one entry per record,
    in the order of the file, with the name of the record and the values of
    its numerals. *)
Theorem well_formed_catalog_is_read_in_full
    (records : list (list string)) (entries : list (region_entry F)) :
  Forall2 (record_of_entry float_of_str) records entries ->
  read_regions float_of_str (Some (catalog_header :: records)) = entries.
Proof.
  unfold read_regions, DictReader.
  induction 1 as [| record entry records entries Hrec _ IH]; [reflexivity |].
  destruct (region_of_record record entry Hrec) as [Hblank Hrow].
  cbn [filter]. rewrite Hblank. cbn [negb map read_rows].
  rewrite Hrow, IH. reflexivity.
Qed.

End CatalogFile.

(** ** A payload with a reading that is not a number *)

Section BadReading.
Context {F : Type} {FA : Arith F}.
Variable open_meteo : F -> F -> except (response F).
Local Open Scope string_scope.

Lemma sum_from_not_a_number (items : list (json F)) (acc : F) :
  existsb (fun v => negb (is_number v)) items = true ->
  exists e, sum_from acc items = Raise e.
Proof.
  revert acc. induction items as [| v items IH]; intros acc; [discriminate |].
  cbn [existsb sum_from].
  destruct v; cbn [is_number negb orb py_add]; eauto.
Qed.

Lemma weather_sample_bad_reading (data : json F) (items : list (json F)) :
  hourly_cloudcover data = Some (JArr items) ->
  existsb (fun v => negb (is_number v)) items = true ->
  exists e, weather_sample data = Raise e.
Proof.
  intros Hh Hbad. unfold hourly_cloudcover in Hh.
  destruct data as [ | | | | | fields]; try discriminate.
  destruct (dict_get "hourly" fields) as [[ | | | | | hourly] |] eqn:Hhourly;
    try discriminate.
  unfold weather_sample.
  destruct (py_get (JObj fields) "current_weather" (JObj [])) as [current | e];
    [| simpl; eauto].
  cbn [bind].
  destruct (py_get current "temperature" (JNum (of_Z 25))) as [temp | e];
    [| simpl; eauto].
  cbn [bind]. unfold py_get at 1. rewrite Hhourly. cbn [bind].
  unfold py_get at 1. rewrite Hh. cbn [bind].
  unfold average_clouds.
  destruct items as [| v items]; [discriminate |].
  cbn [truthy py_sum].
  destruct (sum_from_not_a_number (v :: items) (of_Z 0) Hbad) as [e ->].
  simpl. eauto.
Qed.

(** X24. One reading that is not a number -- a null, a string -- in the hourly
    cloud cover discards the whole sample: the gateway returns the fallback
    (25, 0), so the temperature of the payload is lost with the cloud
    cover. *)
Theorem bad_reading_discards_sample
    (lat lon : F) (res : response F) (data : json F) (items : list (json F)) :
  open_meteo lat lon = Ok res ->
  body res = Some data ->
  hourly_cloudcover data = Some (JArr items) ->
  existsb (fun v => negb (is_number v)) items = true ->
  get_weather_data_cached open_meteo lat lon = Ok fallback_sample.
Proof.
  intros Hres Hbody Hh Hbad.
  unfold get_weather_data_cached, fallback_sample.
  assert (Hraise : exists e, weather_body open_meteo lat lon = Raise e).
  { unfold weather_body. rewrite Hres. cbn [bind].
    destruct (raise_for_status res) as [[] | e]; [| simpl; eauto].
    cbn [bind]. unfold res_json. rewrite Hbody. cbn [bind].
    exact (weather_sample_bad_reading data items Hh Hbad). }
  destruct Hraise as [e He].
  exact (try_except_Exception_raise _ _ e He).
Qed.

End BadReading.

(** ** The ranking pass and the files *)

Section PassFacts.
Context {F : Type} {FA : Arith F} {FL : Libm F} {FR : Round F}.
Variable open_meteo : F -> F -> except (response F).
Variable float_of_str : string -> option F.
Variable today : string.
Variable day_number : Z.
Variable now : string.
Variable sort_values : list (result F) -> list (result F).

Local Abbreviation pass :=
  (process_and_save_top_regions open_meteo float_of_str
     today day_number now sort_values).
Local Abbreviation rows_of := (for_each open_meteo today now).
Local Abbreviation catalog fs := (read_regions float_of_str (REGION_FILE fs)).
Local Abbreviation decl := (declination_angle day_number).

Lemma In_firstn {A : Type} (n : nat) (l : list A) (a : A) :
  In a (firstn n l) -> In a l.
Proof.
  intros H. rewrite <- (firstn_skipn n l). apply in_or_app. left. exact H.
Qed.

Lemma region_result_stamped (d : F) (r : region_entry F) (row : result F) :
  region_result open_meteo today now d r = Ok row ->
  res_region row = region r /\ res_date row = today /\ res_time row = now.
Proof.
  unfold region_result.
  destruct (get_weather_data open_meteo (latitude r) (longitude r)) as [w | e];
    [| discriminate].
  cbn [bind]. intros H. injection H as <-. auto.
Qed.

Lemma for_each_stamped (d : F) (regions : list (region_entry F))
    (rows : list (result F)) :
  rows_of d regions = Ok rows ->
  Forall (fun row => In (res_region row) (map (@region F) regions)
                     /\ res_date row = today /\ res_time row = now) rows.
Proof.
  revert rows. induction regions as [| r regions IH]; intros rows; cbn [for_each].
  - intros H. injection H as <-. constructor.
  - destruct (region_result open_meteo today now d r) as [row | e] eqn:Hrow;
      [| discriminate].
    cbn [bind].
    destruct (rows_of d regions) as [rest | e]; [| discriminate].
    cbn [bind]. intros H. injection H as <-.
    destruct (region_result_stamped d r row Hrow) as (Hname & Hdate & Htime).
    constructor.
    + split; [left; symmetry; exact Hname | auto].
    + eapply Forall_impl; [| apply IH; reflexivity].
      intros a (Hin & Ha). split; [right; exact Hin | exact Ha].
Qed.

Lemma for_each_total (d : F) (regions : list (region_entry F)) :
  exists rows, rows_of d regions = Ok rows.
Proof.
  destruct (for_each_returns open_meteo today now d regions) as [rows [H _]].
  eauto.
Qed.

Lemma pass_unfold (fs : files F) :
  exists rows,
    rows_of decl (catalog fs) = Ok rows
    /\ pass fs = match rows with
                 | [] => Ok ([], fs)
                 | _ :: _ =>
                     Ok (firstn 10 (sort_values rows),
                         to_csv (firstn 10 (sort_values rows)) fs)
                 end.
Proof.
  destruct (for_each_total decl (catalog fs)) as [rows Hrows].
  exists rows. split; [exact Hrows |].
  unfold process_and_save_top_regions. rewrite Hrows. destruct rows; reflexivity.
Qed.

(** X25. The pass never writes the catalog, and every row of its frame comes
    from the catalog and from this pass: it carries the name of a catalog
    entry and the date and time read at the start of the pass. *)
Theorem pass_rows_come_from_catalog (fs : files F) :
  sort_contract sort_values ->
  exists df fs',
    pass fs = Ok (df, fs')
    /\ REGION_FILE fs' = REGION_FILE fs
    /\ Forall (fun row =>
                 In (res_region row) (map (@region F) (catalog fs))
                 /\ res_date row = today /\ res_time row = now) df.
Proof.
  intros Hsort.
  destruct (pass_unfold fs) as (rows & Hrows & Hpass).
  pose proof (for_each_stamped decl (catalog fs) rows Hrows) as Hall.
  rewrite Hpass. destruct rows as [| row rows'].
  - exists [], fs. repeat split. constructor.
  - set (rows := row :: rows') in *.
    eexists _, _. split; [reflexivity |]. split; [reflexivity |].
    destruct (Hsort rows) as [Hperm _].
    rewrite Forall_forall in Hall |- *.
    intros a Ha. apply Hall.
    apply (Permutation_in a (Permutation_sym Hperm)).
    exact (In_firstn 10 _ a Ha).
Qed.

(** X26. Run again at the same reading of the clock and with the same answers
    of the service, the pass returns the same frame and leaves the files as
    the first run left them. *)
Theorem pass_is_idempotent (fs : files F) :
  exists df fs', pass fs = Ok (df, fs') /\ pass fs' = Ok (df, fs').
Proof.
  destruct (pass_unfold fs) as (rows & Hrows & Hpass).
  rewrite Hpass. destruct rows as [| row rows'].
  - exists [], fs. split; [reflexivity | exact Hpass].
  - eexists _, _. split; [reflexivity |].
    unfold process_and_save_top_regions. cbn [to_csv REGION_FILE].
    rewrite Hrows. reflexivity.
Qed.

Lemma region_result_offline (d : F) (r : region_entry F) :
  (forall lat lon, exists e, open_meteo lat lon = Raise e) ->
  exists row,
    region_result open_meteo today now d r = Ok row
    /\ temp row = JNum (of_Z 25)
    /\ cloud row = py_round (of_Z 0) 2
    /\ intensity row = solar_intensity (of_Z 0).
Proof.
  intros Hdown. unfold region_result, get_weather_data, get_weather_data_cached.
  destruct (Hdown (py_round (latitude r) 4) (py_round (longitude r) 4))
    as [e He].
  rewrite (try_except_Exception_raise _ _ e
             (weather_body_transport open_meteo _ _ e He)).
  cbn [bind fst snd]. eexists. split; [reflexivity |]. auto.
Qed.

Lemma for_each_offline (d : F) (regions : list (region_entry F)) :
  (forall lat lon, exists e, open_meteo lat lon = Raise e) ->
  exists rows,
    rows_of d regions = Ok rows
    /\ Forall (fun row => temp row = JNum (of_Z 25)
                          /\ cloud row = py_round (of_Z 0) 2
                          /\ intensity row = solar_intensity (of_Z 0)) rows.
Proof.
  intros Hdown. induction regions as [| r regions IH]; cbn [for_each].
  - exists []. split; [reflexivity | constructor].
  - destruct (region_result_offline d r Hdown) as (row & -> & Hrow).
    destruct IH as (rows & -> & Hrows).
    exists (row :: rows). split; [reflexivity |]. constructor; assumption.
Qed.

(** X27. With the forecast service out of reach the pass still ranks the whole
    catalog: every row of the frame has the fallback temperature 25, the
    cloud cover 0 and the intensity of a clear sky. *)
Theorem pass_without_network (fs : files F) :
  sort_contract sort_values ->
  (forall lat lon, exists e, open_meteo lat lon = Raise e) ->
  exists df fs',
    pass fs = Ok (df, fs')
    /\ List.length df = Nat.min 10 (List.length (catalog fs))
    /\ Forall (fun row => temp row = JNum (of_Z 25)
                          /\ cloud row = py_round (of_Z 0) 2
                          /\ intensity row = solar_intensity (of_Z 0)) df.
Proof.
  intros Hsort Hdown.
  destruct (for_each_offline decl (catalog fs) Hdown) as (rows & Hrows & Hall).
  pose proof (rows_length open_meteo today now decl (catalog fs) rows Hrows)
    as Hlen.
  unfold process_and_save_top_regions. rewrite Hrows. cbn [bind].
  destruct rows as [| row rows'].
  - exists [], fs. rewrite <- Hlen. repeat split. constructor.
  - set (rows := row :: rows') in *.
    eexists _, _. split; [reflexivity |].
    destruct (Hsort rows) as [Hperm _]. split.
    + rewrite length_firstn, <- (Permutation_length Hperm), Hlen. reflexivity.
    + rewrite Forall_forall in Hall |- *.
      intros a Ha. apply Hall.
      apply (Permutation_in a (Permutation_sym Hperm)).
      exact (In_firstn 10 _ a Ha).
Qed.

End PassFacts.

(** The catalog of Pune and Delhi. *)
Lemma well_formed_catalog_is_read_in_full_witness :
  read_regions Decimal.float_of_str
    (Some (catalog_header :: Forecasts.catalog_records))
  = Forecasts.catalog_entries.
Proof.
  apply (well_formed_catalog_is_read_in_full Decimal.float_of_str
           Forecasts.catalog_records Forecasts.catalog_entries).
  constructor; [| constructor; [| constructor]].
  - exists "Pune"%string, "18.52"%string, "73.86"%string.
    repeat split; vm_compute; reflexivity.
  - exists "Delhi"%string, "28.61"%string, "77.21"%string.
    repeat split; vm_compute; reflexivity.
Defined.

(** A forecast with a null among its readings. *)
Lemma bad_reading_discards_sample_witness :
  get_weather_data_cached (Samples.answering Forecasts.forecast_with_gap)
    (fst Forecasts.pune) (snd Forecasts.pune)
  = Ok fallback_sample.
Proof.
  apply (bad_reading_discards_sample
           (Samples.answering Forecasts.forecast_with_gap)
           (fst Forecasts.pune) (snd Forecasts.pune)
           {| status_code := 200; body := Some Forecasts.forecast_with_gap |}
           Forecasts.forecast_with_gap
           [JNum (of_Z 50); JNull; JNum (of_Z 90)]);
    reflexivity.
Defined.

(** The pass over the catalog of two entries. *)
Lemma pass_rows_come_from_catalog_witness :
  exists df fs',
    Offline.run_pass Offline.twin_files = Ok (df, fs')
    /\ REGION_FILE fs' = Some Offline.catalog_twins
    /\ Forall (fun row => res_date row = "2026-03-21"%string) df.
Proof.
  destruct (pass_rows_come_from_catalog Offline.offline Decimal.real_of_str
              "2026-03-21" 80 "12:00:00" insertion_sort_values
              Offline.twin_files real_insertion_sort_contract)
    as (df & fs' & Hpass & Hfile & Hrows).
  exists df, fs'. split; [exact Hpass | split; [exact Hfile |]].
  eapply Forall_impl; [| exact Hrows]. intros row (_ & Hdate & _). exact Hdate.
Defined.

(** The same pass: every request times out. *)
Lemma pass_without_network_witness :
  exists df fs',
    Offline.run_pass Offline.twin_files = Ok (df, fs')
    /\ List.length df = 2%nat
    /\ Forall (fun row => temp row = JNum (of_Z 25)) df.
Proof.
  destruct (pass_without_network Offline.offline Decimal.real_of_str
              "2026-03-21" 80 "12:00:00" insertion_sort_values
              Offline.twin_files real_insertion_sort_contract)
    as (df & fs' & Hpass & Hlen & Hrows).
  - intros lat lon. exists Timeout. reflexivity.
  - exists df, fs'. split; [exact Hpass | split].
    + rewrite Hlen, twin_catalog_regions. reflexivity.
    + eapply Forall_impl; [| exact Hrows]. intros row (Htemp & _). exact Htemp.
Defined.
